(** * webapp.py: the scraping and extraction core of the IMDb analysis app

    A shallow embedding of [text_to_num], [is_valid_imdb_url], [scrape_data],
    [parse_data] and of the script's scrape action, together with the parts
    of the Python runtime they call ([str] methods, [int()], [float()],
    [urllib.parse.urlparse], the four regular expressions).

    Conventions.
    - A Python [str] is a list of Unicode code points ([N]).
    - A Python exception is a constructor of [exn]; a computation that may
      raise returns a [result].
    - A Python [float] is an IEEE 754 binary64 value, represented by the
      Standard Library's executable specification [spec_float]
      (precision 53, emax 1024).
    - Tables of the interpreter that depend on its Unicode database are
      parameters, and they are consulted on non-ASCII code points only. *)

From Stdlib Require Import ZArith NArith List String Ascii Bool Lia Sorted.
From Stdlib Require Import DecimalString.
From Stdlib Require QArith_base.
From Stdlib Require Import Floats.SpecFloat.
Import ListNotations.

(* ===================================================================== *)
(** * Part I: definitions *)
(* ===================================================================== *)

(** ** Exceptions and results *)

Inductive exn : Type :=
| IndexError
| ValueError
| OverflowError
| AttributeError
| TypeError
| KeyError.

Inductive result (A : Type) : Type :=
| Ok (a : A)
| Raise (e : exn).

Arguments Ok {A} a.
Arguments Raise {A} e.

Definition bind {A B : Type} (r : result A) (k : A -> result B) : result B :=
  match r with
  | Ok a => k a
  | Raise e => Raise e
  end.

Declare Scope py_scope.
Delimit Scope py_scope with py.
Notation "x <- c ;; k" := (bind c (fun x => k))
  (at level 61, c at next level, right associativity) : py_scope.
Local Open Scope py_scope.

(** ** Text *)

Definition char := N.
Definition str := list char.

(** An ASCII literal as a [str]. *)
Definition lit (s : string) : str :=
  List.map N_of_ascii (list_ascii_of_string s).

Definition char_eqb (a b : char) : bool := N.eqb a b.

Fixpoint str_eqb (a b : str) : bool :=
  match a, b with
  | [], [] => true
  | x :: a', y :: b' => char_eqb x y && str_eqb a' b'
  | _, _ => false
  end.

(** [c in s] for a one-character [c]. *)
Definition mem_char (c : char) (s : str) : bool := existsb (char_eqb c) s.

Definition in_range (lo hi c : N) : bool := (lo <=? c)%N && (c <=? hi)%N.

(** [str.isspace] of one character: CPython's [_PyUnicode_IsWhitespace]. *)
Definition is_space (c : char) : bool :=
  in_range 9 13 c || in_range 28 31 c || N.eqb c 32 || N.eqb c 133
  || N.eqb c 160 || N.eqb c 5760 || in_range 8192 8202 c || N.eqb c 8232
  || N.eqb c 8233 || N.eqb c 8239 || N.eqb c 8287 || N.eqb c 12288.

(** [Py_ISSPACE]: the C-locale [isspace], used by the number parsers. *)
Definition is_c_space (c : char) : bool := in_range 9 13 c || N.eqb c 32.

Definition is_ascii_digit (c : char) : bool := in_range 48 57 c.

Definition ascii_digit_value (c : char) : option N :=
  if is_ascii_digit c then Some (c - 48)%N else None.

Fixpoint lstrip_with (p : char -> bool) (s : str) : str :=
  match s with
  | c :: s' => if p c then lstrip_with p s' else s
  | [] => []
  end.

Definition rstrip_with (p : char -> bool) (s : str) : str :=
  rev (lstrip_with p (rev s)).

(** [s.strip()] *)
Definition strip (s : str) : str := rstrip_with is_space (lstrip_with is_space s).

(** [s.startswith(p)], returning the rest of [s] after the prefix. *)
Fixpoint strip_prefix (p s : str) : option str :=
  match p, s with
  | [], _ => Some s
  | x :: p', y :: s' => if char_eqb x y then strip_prefix p' s' else None
  | _ :: _, [] => None
  end.

(** The longest prefix of [s] whose characters satisfy [p], and the rest. *)
Fixpoint span (p : char -> bool) (s : str) : str * str :=
  match s with
  | c :: s' =>
      if p c then let '(a, b) := span p s' in (c :: a, b) else ([], s)
  | [] => ([], [])
  end.

(** [s.split(sep)] for a non-empty [sep]: the pieces between the
    non-overlapping occurrences of [sep], scanned from the left. [cur] holds
    the current piece in reverse; [skip] counts the characters of a found
    occurrence that are still to be passed over. *)
Fixpoint split_go (sep : str) (skip : nat) (cur : str) (s : str) : list str :=
  match s with
  | [] => [rev cur]
  | c :: s' =>
      match skip with
      | S k => split_go sep k cur s'
      | O =>
          match strip_prefix sep s with
          | Some _ => rev cur :: split_go sep (List.length sep - 1) [] s'
          | None => split_go sep 0 (c :: cur) s'
          end
      end
  end.

Definition split (sep s : str) : list str := split_go sep 0 [] s.

(** [l[i]] for a non-negative index. *)
Definition index {A : Type} (l : list A) (i : nat) : result A :=
  match nth_error l i with
  | Some a => Ok a
  | None => Raise IndexError
  end.

(** [l[-1]] *)
Definition last_item {A : Type} (l : list A) : result A :=
  match rev l with
  | a :: _ => Ok a
  | [] => Raise IndexError
  end.

(** [s[:-1]] *)
Definition all_but_last {A : Type} (l : list A) : list A := removelast l.

(** ** The interpreter's numbers *)

Definition prec : Z := 53.
Definition emax : Z := 1024.

(** A Python number as the program handles it: an [int] or a [float]. *)
Inductive pynum : Type :=
| PyInt (z : Z)
| PyFloat (f : spec_float).

Definition ch (a : ascii) : char := N_of_ascii a.

Definition to_lower (c : char) : char :=
  if in_range 65 90 c then (c + 32)%N else c.

(** An optional sign: [true] for a minus. *)
Definition take_sign (s : str) : bool * str :=
  match s with
  | c :: s' =>
      if char_eqb c (ch "-") then (true, s')
      else if char_eqb c (ch "+") then (false, s')
      else (false, s)
  | [] => (false, [])
  end.

(** The value of a run of ASCII digits read in base ten. *)
Definition digits_value (ds : str) : Z :=
  fold_left (fun acc c => (10 * acc + Z.of_N (c - 48))%Z) ds 0%Z.

Section Runtime.

(** [Py_UNICODE_TODECIMAL] on the code points from 128 on: the decimal digit
    value the interpreter's Unicode database gives a character, if any. *)
Variable unicode_decimal : char -> option N.

Definition decimal_value (c : char) : option N :=
  if (c <? 128)%N then ascii_digit_value c else unicode_decimal c.

(** [Py_UNICODE_ISDECIMAL]; this is also what [\d] matches in a [str]
    pattern. *)
Definition is_decimal (c : char) : bool :=
  match decimal_value c with
  | Some _ => true
  | None => false
  end.

(** [_PyUnicode_TransformDecimalAndSpaceToASCII]: an ASCII string is
    returned as it is; otherwise white space becomes a blank, a decimal
    digit its ASCII digit, and the first other character from 127 on becomes
    a question mark that ends the result. *)
Fixpoint transform_loop (s : str) : str :=
  match s with
  | [] => []
  | c :: s' =>
      if (c <? 127)%N then c :: transform_loop s'
      else if is_space c then 32%N :: transform_loop s'
      else match decimal_value c with
           | Some d => (48 + d)%N :: transform_loop s'
           | None => [63%N]
           end
  end.

Definition transform_decimal_and_space (s : str) : str :=
  if forallb (fun c => (c <? 128)%N) s then s else transform_loop s.

(** *** [int(s)] for a [str] *)

(** [sys.int_info.default_max_str_digits] *)
Definition int_max_str_digits : nat := 4300.

(** The loop of [long_from_string_base]: digits, with single underscores
    between them. Returns the value, the number of digits and the rest. *)
Fixpoint scan_int (prev_underscore : bool) (acc : Z) (n : nat) (s : str)
  : option (Z * nat * str) :=
  match s with
  | c :: s' =>
      if is_ascii_digit c then
        scan_int false (10 * acc + Z.of_N (c - 48))%Z (S n) s'
      else if char_eqb c (ch "_") then
        if prev_underscore then None else scan_int true acc n s'
      else if prev_underscore then None else Some (acc, n, s)
  | [] => if prev_underscore then None else Some (acc, n, [])
  end.

Definition py_int (s : str) : result Z :=
  let t := lstrip_with is_c_space (transform_decimal_and_space s) in
  let '(neg, t) := take_sign t in
  match t with
  | c :: _ =>
      if char_eqb c (ch "_") then Raise ValueError
      else
        match scan_int false 0%Z 0 t with
        | Some (v, n, rest) =>
            match n, lstrip_with is_c_space rest with
            | S _, [] =>
                if Nat.ltb int_max_str_digits n then Raise ValueError
                else Ok (if neg then (- v)%Z else v)
            | _, _ => Raise ValueError
            end
        | None => Raise ValueError
        end
  | [] => Raise ValueError
  end.

(** *** [float(s)] for a [str] *)

(** [_Py_string_to_number_with_underscores]: an underscore is allowed only
    between two digits, and is dropped. *)
Fixpoint drop_underscores (prev : option char) (s : str) : option str :=
  match s with
  | [] =>
      match prev with
      | Some p => if char_eqb p (ch "_") then None else Some []
      | None => Some []
      end
  | c :: s' =>
      if char_eqb c (ch "_") then
        match prev with
        | Some p =>
            if is_ascii_digit p then drop_underscores (Some c) s' else None
        | None => None
        end
      else
        let after_underscore :=
          match prev with
          | Some p => char_eqb p (ch "_")
          | None => false
          end in
        if after_underscore && negb (is_ascii_digit c) then None
        else option_map (cons c) (drop_underscores (Some c) s')
  end.

(** The binary64 value nearest to [m * 10 ^ e10] (ties to even), [m > 0]. *)
Definition round_decimal (neg : bool) (m : positive) (e10 : Z) : spec_float :=
  if (0 <=? e10)%Z then
    binary_round prec emax neg (m * Z.to_pos (10 ^ e10)) 0%Z
  else
    let '(q, e, l) :=
      SFdiv_core_binary prec emax (Zpos m) 0%Z (10 ^ (- e10))%Z 0%Z in
    binary_round_aux prec emax neg q e l.

Definition float_of_decimal (neg : bool) (m : Z) (e10 : Z) : spec_float :=
  match m with
  | Zpos p => round_decimal neg p e10
  | _ => S754_zero neg
  end.

(** [_Py_dg_strtod]: sign, digits, an optional point and digits, at least
    one digit in all, and an exponent when a digit follows its letter (and
    its sign). Returns the value and the unread rest, or [None] when no
    number starts the text. *)
Definition parse_exponent (s : str) : Z * str :=
  match s with
  | c :: s1 =>
      if char_eqb (to_lower c) (ch "e") then
        let '(eneg, s2) := take_sign s1 in
        let '(ed, s3) := span is_ascii_digit s2 in
        match ed with
        | [] => (0%Z, s)
        | _ :: _ =>
            ((if eneg then - digits_value ed else digits_value ed)%Z, s3)
        end
      else (0%Z, s)
  | [] => (0%Z, [])
  end.

Definition strtod (s : str) : option (spec_float * str) :=
  let '(neg, s1) := take_sign s in
  let '(ip, s2) := span is_ascii_digit s1 in
  let '(fp, s3) :=
    match s2 with
    | c :: r => if char_eqb c (ch ".") then span is_ascii_digit r else ([], s2)
    | [] => ([], s2)
    end in
  match ip ++ fp with
  | [] => None
  | ds =>
      let '(e, s4) := parse_exponent s3 in
      Some (float_of_decimal neg (digits_value ds)
              (e - Z.of_nat (List.length fp)), s4)
  end.

(** [_Py_parse_inf_or_nan] *)
Definition strip_prefix_nocase (p s : str) : option str :=
  match strip_prefix p (List.map to_lower (firstn (List.length p) s)) with
  | Some [] => Some (skipn (List.length p) s)
  | _ => None
  end.

Definition parse_inf_or_nan (s : str) : option (spec_float * str) :=
  let '(neg, s1) := take_sign s in
  match strip_prefix_nocase (lit "inf") s1 with
  | Some r =>
      match strip_prefix_nocase (lit "inity") r with
      | Some r' => Some (S754_infinity neg, r')
      | None => Some (S754_infinity neg, r)
      end
  | None =>
      match strip_prefix_nocase (lit "nan") s1 with
      | Some r => Some (S754_nan, r)
      | None => None
      end
  end.

(** [float_from_string_inner] *)
Definition float_from_string_inner (s : str) : result spec_float :=
  match rstrip_with is_c_space (lstrip_with is_c_space s) with
  | [] => Raise ValueError
  | body =>
      let parsed :=
        match strtod body with
        | Some r => Some r
        | None => parse_inf_or_nan body
        end in
      match parsed with
      | Some (x, []) => Ok x
      | _ => Raise ValueError
      end
  end.

Definition py_float (s : str) : result spec_float :=
  let t := transform_decimal_and_space s in
  if mem_char (ch "_") t then
    match drop_underscores None t with
    | Some t' => float_from_string_inner t'
    | None => Raise ValueError
    end
  else float_from_string_inner t.

End Runtime.

(** The characters that can occur in a text [float()] accepts, white space
    and underscores apart. *)
Definition float_char (c : char) : bool :=
  mem_char (to_lower c) (lit "+-.0123456789einftya").

(** [float(z)] for an [int]: nearest binary64, [OverflowError] beyond the
    largest. *)
Definition float_of_int (z : Z) : result spec_float :=
  match binary_normalize prec emax z 0%Z false with
  | S754_infinity _ => Raise OverflowError
  | f => Ok f
  end.

(** [int(f)] for a [float]: truncation toward zero. *)
Definition int_of_float (f : spec_float) : result Z :=
  match f with
  | S754_nan => Raise ValueError
  | S754_infinity _ => Raise OverflowError
  | S754_zero _ => Ok 0%Z
  | S754_finite s m e =>
      let a :=
        if (0 <=? e)%Z then (Zpos m * 2 ^ e)%Z
        else (Zpos m / 2 ^ (- e))%Z in
      Ok (if s then (- a)%Z else a)
  end.

(** [x * k] for a [float] and an [int]. *)
Definition float_mul_int (x : spec_float) (k : Z) : result spec_float :=
  y <- float_of_int k ;;
  Ok (SFmul prec emax x y).

(** The integer a float equals, when it is integer-valued. *)
Definition float_integer_value (f : spec_float) : option Z :=
  match f with
  | S754_zero _ => Some 0%Z
  | S754_finite s m e =>
      if (0 <=? e)%Z then
        Some (if s then (- (Zpos m * 2 ^ e))%Z else (Zpos m * 2 ^ e)%Z)
      else if (Zpos m mod 2 ^ (- e) =? 0)%Z then
        Some (if s then (- (Zpos m / 2 ^ (- e)))%Z else (Zpos m / 2 ^ (- e))%Z)
      else None
  | _ => None
  end.

(** The exact value of a finite float, as a fraction. *)
Definition float_to_Q (f : spec_float) : option QArith_base.Q :=
  match f with
  | S754_zero _ => Some (QArith_base.inject_Z 0)
  | S754_finite s m e =>
      let n := if s then Zneg m else Zpos m in
      Some (if (0 <=? e)%Z then QArith_base.inject_Z (n * 2 ^ e)
            else QArith_base.Qmake n (2 ^ Z.to_pos (- e)))
  | _ => None
  end.

(** The integer part of a fraction: rounding toward zero. *)
Definition truncate (q : QArith_base.Q) : Z :=
  Z.quot (QArith_base.Qnum q) (Zpos (QArith_base.Qden q)).

(** [a == b] on numbers: the comparison is exact, also between an [int]
    and a [float]. *)
Definition py_eq (a b : pynum) : bool :=
  match a, b with
  | PyInt x, PyInt y => Z.eqb x y
  | PyFloat x, PyFloat y => SFeqb x y
  | PyInt x, PyFloat y | PyFloat y, PyInt x =>
      match float_integer_value y with
      | Some z => Z.eqb x z
      | None => false
      end
  end.

(** ** Regular expressions: does a pattern match?

    [re.match(p, s) is not None] for a pattern [p] that ends in [$] asks
    whether a prefix of [s] is in the language of [p] with nothing, or one
    final newline, after it. That is membership of [s] in a regular language,
    decided here with derivatives. *)

Inductive regex : Type :=
| Never
| Empty
| Chr (c : char)
| Class (p : char -> bool)
| Seq (r1 r2 : regex)
| Or (r1 r2 : regex)
| Many (r : regex).

Fixpoint nullable (r : regex) : bool :=
  match r with
  | Never => false
  | Empty => true
  | Chr _ => false
  | Class _ => false
  | Seq r1 r2 => nullable r1 && nullable r2
  | Or r1 r2 => nullable r1 || nullable r2
  | Many _ => true
  end.

Fixpoint deriv (a : char) (r : regex) : regex :=
  match r with
  | Never => Never
  | Empty => Never
  | Chr c => if char_eqb a c then Empty else Never
  | Class p => if p a then Empty else Never
  | Seq r1 r2 =>
      if nullable r1 then Or (Seq (deriv a r1) r2) (deriv a r2)
      else Seq (deriv a r1) r2
  | Or r1 r2 => Or (deriv a r1) (deriv a r2)
  | Many r1 => Seq (deriv a r1) (Many r1)
  end.

Fixpoint accepts (r : regex) (s : str) : bool :=
  match s with
  | [] => nullable r
  | a :: s' => accepts (deriv a r) s'
  end.

(** The words of a pattern. *)
Inductive lang : regex -> str -> Prop :=
| lang_empty : lang Empty []
| lang_chr c : lang (Chr c) [c]
| lang_class (p : char -> bool) c : p c = true -> lang (Class p) [c]
| lang_seq r1 r2 s1 s2 :
    lang r1 s1 -> lang r2 s2 -> lang (Seq r1 r2) (s1 ++ s2)
| lang_or_l r1 r2 s : lang r1 s -> lang (Or r1 r2) s
| lang_or_r r1 r2 s : lang r2 s -> lang (Or r1 r2) s
| lang_many_nil r : lang (Many r) []
| lang_many_app r s1 s2 :
    lang r s1 -> lang (Many r) s2 -> lang (Many r) (s1 ++ s2).

(** A literal text, [r+], and [$]. *)
Definition word (s : str) : regex :=
  fold_right (fun c r => Seq (Chr c) r) Empty s.
Definition plus (r : regex) : regex := Seq r (Many r).
Definition dollar : regex := Or Empty (Chr 10%N).

(** ** [urllib.parse.urlparse] (CPython 3.12), as far as the scheme, the
    network location and the exceptions go *)

Record ParseResult : Type := {
  scheme : str;
  netloc : str
}.

Definition is_ascii_alpha (c : char) : bool :=
  in_range 65 90 c || in_range 97 122 c.

(** [_WHATWG_C0_CONTROL_OR_SPACE] *)
Definition c0_control_or_space (c : char) : bool := (c <=? 32)%N.

(** [_UNSAFE_URL_BYTES_TO_REMOVE]: tab, carriage return, newline *)
Definition unsafe_url_byte (c : char) : bool :=
  N.eqb c 9 || N.eqb c 13 || N.eqb c 10.

(** [scheme_chars] *)
Definition scheme_char (c : char) : bool :=
  is_ascii_alpha c || is_ascii_digit c || mem_char c (lit "+-.").

(** The scheme of [url] (lower-cased) and what follows its colon, or no
    scheme and [url] itself. *)
Definition split_scheme (url : str) : str * str :=
  let '(before, rest) := span (fun c => negb (char_eqb c (ch ":"))) url in
  match before, rest with
  | c0 :: _, _ :: after =>
      if is_ascii_alpha c0 && forallb scheme_char before
      then (List.map to_lower before, after)
      else ([], url)
  | _, _ => ([], url)
  end.

(** [_splitnetloc(url, 2)] after a leading [//]. *)
Definition splitnetloc (url : str) : option (str * str) :=
  match url with
  | a :: b :: r =>
      if char_eqb a (ch "/") && char_eqb b (ch "/")
      then Some (span (fun c => negb (mem_char c (lit "/?#"))) r)
      else None
  | _ => None
  end.

Section UrlParse.

(** [_check_bracketed_netloc] accepts the network location (it raises
    [ValueError] otherwise). *)
Variable bracketed_netloc_ok : str -> bool.

(** [unicodedata.normalize('NFKC', s)] *)
Variable nfkc : str -> str.

(** [_checknetloc] *)
Definition checknetloc (nl : str) : result unit :=
  match nl with
  | [] => Ok tt
  | _ :: _ =>
      if forallb (fun c => (c <? 128)%N) nl then Ok tt
      else
        let n := filter (fun c => negb (mem_char c (lit "@:#?"))) nl in
        let netloc2 := nfkc n in
        if str_eqb n netloc2 then Ok tt
        else if existsb (fun c => mem_char c netloc2) (lit "/?#@:")
             then Raise ValueError
             else Ok tt
  end.

Definition urlparse (url : str) : result ParseResult :=
  let url := lstrip_with c0_control_or_space url in
  let url := filter (fun c => negb (unsafe_url_byte c)) url in
  let '(sch, url) := split_scheme url in
  nl <-
    match splitnetloc url with
    | Some (nl, _) =>
        let opening := mem_char (ch "[") nl in
        let closing := mem_char (ch "]") nl in
        if (opening && negb closing) || (closing && negb opening)
        then Raise ValueError
        else if opening && closing && negb (bracketed_netloc_ok nl)
             then Raise ValueError
             else Ok nl
    | None => Ok []
    end ;;
  _ <- checknetloc nl ;;
  Ok {| scheme := sch; netloc := nl |}.

End UrlParse.

(** [bool(s)] for a [str] *)
Definition truthy (s : str) : bool :=
  match s with
  | [] => false
  | _ :: _ => true
  end.

(** [str(z)] for an [int] *)
Definition str_of_int (z : Z) : str := lit (NilZero.string_of_int (Z.to_int z)).

(** [range(a, b)] *)
Definition range (a b : Z) : list Z :=
  List.map (fun i => (a + Z.of_nat i)%Z) (seq 0 (Z.to_nat (b - a))).

(** ** What the program prints and shows

    [st.error], [st.toast] and [print] only add to what the user sees, so an
    action is a result together with the events it emitted, in order. *)

Inductive event : Type :=
| HttpErrorShown (status_code : Z)  (* st.error(f"HTTP Error: {e}") *)
| RequestErrorShown                 (* st.error(f"Error: {e}") *)
| UnexpectedErrorShown              (* st.error(f"An unexpected error ...") *)
| FailedToScrapeShown               (* st.error('Failed to scrape data.') *)
| InvalidUrlShown                   (* st.error('Invalid URL. ...') *)
| ToastShown                        (* st.toast('Data scraped!') *)
| Printed (line : str).             (* print(...) *)

Definition io (A : Type) : Type := list event * result A.

Definition ret {A : Type} (a : A) : io A := ([], Ok a).

Definition lift {A : Type} (r : result A) : io A := ([], r).

Definition emit (e : event) : io unit := ([e], Ok tt).

Definition io_bind {A B : Type} (m : io A) (k : A -> io B) : io B :=
  match m with
  | (out, Ok a) => let '(out', r) := k a in (out ++ out', r)
  | (out, Raise e) => (out, Raise e)
  end.

Notation "x <~ c ;; k" := (io_bind c (fun x => k))
  (at level 61, c at next level, right associativity) : py_scope.

(** ** The network, and the pages as the program queries them *)

(** What [requests.get(url, headers=headers)] does. *)
Inductive get_outcome : Type :=
| Response (status_code : Z) (text : str)
| RaisesRequestException   (* an exception of [requests.exceptions] *)
| RaisesOther.             (* any other [Exception] *)

(** An episode block ([div] of class [kyIRYf]): the text of the first
    element each query of the loop body finds in it, if there is one. *)
Record episode_block : Type := {
  title_div : option str;        (* div.ipc-title__text *)
  rating_star : option str;      (* span.ipc-rating-star *)
  air_date_span : option str;    (* span.fyHWhz *)
  description_div : option str   (* div.ipc-html-content-inner-div *)
}.

(** A parsed page: what the queries of [parse_data] find in it. *)
Record document : Type := {
  series_rating_span : option str;  (* span of class sc-bde20123-1 cMEQkK *)
  series_votes_div : option str;    (* div of class sc-bde20123-3 gPVQxL *)
  seasontabs : list str;            (* li with data-testid tab-season-entry *)
  show_name_h2 : option str;        (* h2 of class sc-a885edd8-9 dcErWY *)
  poster_img : str -> option (option str);
    (* the first img of class ipc-image with the given alt text, as its src
       attribute if it has one *)
  episodes : list episode_block     (* div of class kyIRYf *)
}.

Record datetime : Type := { year : Z; month : Z; day : Z }.

(** One row of the dataset, with the columns of the data frame. *)
Record episode_data : Type := {
  season : Z;
  episode_number : Z;
  cumulative_episode_number : Z;
  title : str;
  air_date : datetime;
  rating_value : pynum;
  votes : pynum;
  description : str
}.

(** [overall_series_data]: rating, votes, show name. *)
Record series_data : Type := {
  series_rating : pynum;
  series_votes : pynum;
  show_name : str
}.

(** A row with another cumulative number. *)
Definition with_cumulative (n : Z) (row : episode_data) : episode_data :=
  {| season := season row;
     episode_number := episode_number row;
     cumulative_episode_number := n;
     title := title row;
     air_date := air_date row;
     rating_value := rating_value row;
     votes := votes row;
     description := description row |}.

(** [tag.text] of the result of [find]: [AttributeError] on [None]. *)
Definition text_of (found : option str) : result str :=
  match found with
  | Some t => Ok t
  | None => Raise AttributeError
  end.

(** ** The patterns of [parse_data] *)

(** One match of [S[0-9]+\.E([0-9]+)] at the start of [s]: its group and
    the rest of [s] after it. *)
Definition match_epnum (s : str) : option (str * str) :=
  match s with
  | c :: s1 =>
      if char_eqb c (ch "S") then
        let '(d1, s2) := span is_ascii_digit s1 in
        match d1, s2 with
        | _ :: _, dot :: e :: s3 =>
            if char_eqb dot (ch ".") && char_eqb e (ch "E") then
              let '(d2, s4) := span is_ascii_digit s3 in
              match d2 with
              | [] => None
              | _ :: _ => Some (d2, s4)
              end
            else None
        | _, _ => None
        end
      else None
  | [] => None
  end.

(** [epnum.sub('\\1', s)]: every match, scanning from the left, is replaced
    by its group. [skip] counts the characters of a match still to pass. *)
Fixpoint epnum_sub_go (skip : nat) (s : str) : str :=
  match s with
  | [] => []
  | c :: s' =>
      match skip with
      | S k => epnum_sub_go k s'
      | O =>
          match match_epnum s with
          | Some (g, rest) =>
              g ++ epnum_sub_go (List.length s' - List.length rest) s'
          | None => c :: epnum_sub_go 0 s'
          end
      end
  end.

Definition epnum_sub (s : str) : str := epnum_sub_go 0 s.

(** [re.search(votesmatch, s)]: the pattern is an opening parenthesis, a
    group of any number of characters other than a closing parenthesis, and
    a closing parenthesis; this is the group of the leftmost match. *)
Fixpoint votesmatch_search (s : str) : option str :=
  match s with
  | [] => None
  | c :: s' =>
      if char_eqb c (ch "(") then
        match span (fun x => negb (char_eqb x (ch ")"))) s' with
        | (g, _ :: _) => Some g
        | (_, []) => votesmatch_search s'
        end
      else votesmatch_search s'
  end.

(** [m.group(1)] of the result of [re.search]: [AttributeError] on [None]. *)
Definition group1 (m : option str) : result str :=
  match m with
  | Some g => Ok g
  | None => Raise AttributeError
  end.

(** The separator of the title field, as the source file has it: a blank,
    U+00E2, U+02C6, U+2122, a blank. *)
Definition separator : str := [32; 226; 710; 8482; 32]%N.

(** ** [text_to_num] *)

Definition dic : list (str * Z) :=
  [(lit "K", 1000%Z); (lit "M", 1000000%Z)].

(** [dic[k]] and [k in dic] *)
Fixpoint dict_get (k : str) (d : list (str * Z)) : option Z :=
  match d with
  | (k', v) :: d' => if str_eqb k k' then Some v else dict_get k d'
  | [] => None
  end.

Section Webapp.

Variable unicode_decimal : char -> option N.
Variable bracketed_netloc_ok : str -> bool.
Variable nfkc : str -> str.

(** [datetime.strptime(s, '%a, %b %d, %Y')], [None] for its [ValueError]. *)
Variable strptime : str -> option datetime.

(** The network: what a GET of each URL yields. *)
Variable requests_get : str -> get_outcome.

(** The HTML parser, with the queries of [parse_data] applied. *)
Variable BeautifulSoup : str -> document.

Definition text_to_num (text : str) : result pynum :=
  last <- last_item text ;;
  match dict_get [last] dic with
  | Some mag =>
      let num := all_but_last text in
      x <- py_float unicode_decimal num ;;
      p <- float_mul_int x mag ;;
      z <- int_of_float p ;;
      Ok (PyInt z)
  | None =>
      x <- py_float unicode_decimal text ;;
      Ok (PyFloat x)
  end.

(** ** [is_valid_imdb_url] *)

Definition episodes_suffix : str := lit "episodes/?season=".

(** [^https://www\.imdb\.com/title/tt\d+/episodes/\?season=$] *)
Definition url_pattern : regex :=
  Seq (word (lit "https://www.imdb.com/title/tt"))
    (Seq (plus (Class (is_decimal unicode_decimal)))
       (Seq (word (lit "/episodes/?season=")) dollar)).

Definition is_valid_imdb_url (url : str) : result bool :=
  let url := url ++ episodes_suffix in
  parsed_url <- urlparse bracketed_netloc_ok nfkc url ;;
  if negb (truthy (scheme parsed_url) && truthy (netloc parsed_url))
  then Ok false
  else Ok (accepts url_pattern url).

(** The URLs of the form [https://www.imdb.com/title/tt<digits>/]. *)
Definition imdb_title_url (url : str) : Prop :=
  exists ds : str,
    ds <> []
    /\ forallb (is_decimal unicode_decimal) ds = true
    /\ url = lit "https://www.imdb.com/title/tt" ++ ds ++ lit "/".

(** ** [scrape_data] *)

(** [response.raise_for_status()] raises [HTTPError] on a status from 400
    to 599. *)
Definition raises_for_status (status_code : Z) : bool :=
  (400 <=? status_code)%Z && (status_code <? 600)%Z.

Definition scrape_data (url : str) : io (option str) :=
  match requests_get url with
  | Response status_code text =>
      if raises_for_status status_code then
        _ <~ emit (HttpErrorShown status_code) ;; ret None
      else ret (Some text)
  | RaisesRequestException => _ <~ emit RequestErrorShown ;; ret None
  | RaisesOther => _ <~ emit UnexpectedErrorShown ;; ret None
  end.

(** [BeautifulSoup(markup, 'html.parser')]: [TypeError] on [None]. *)
Definition soup_of (markup : option str) : result document :=
  match markup with
  | Some m => Ok (BeautifulSoup m)
  | None => Raise TypeError
  end.

(** ** [parse_data] *)

(** [re.search(ratingmatch, s)] for [(\d+(?:\.\d+)?)]: the group of the
    leftmost match. *)
Fixpoint ratingmatch_search (s : str) : option str :=
  match s with
  | [] => None
  | c :: s' =>
      if is_decimal unicode_decimal c then
        let '(ds, r) := span (is_decimal unicode_decimal) s in
        match r with
        | dot :: r' =>
            if char_eqb dot (ch ".") then
              match fst (span (is_decimal unicode_decimal) r') with
              | [] => Some ds
              | fs => Some (ds ++ dot :: fs)
              end
            else Some ds
        | [] => Some ds
        end
      else ratingmatch_search s'
  end.

(** [float(t) if '.' in t else int(t)] *)
Definition rating_number (t : str) : result pynum :=
  if mem_char (ch ".") t then
    x <- py_float unicode_decimal t ;; Ok (PyFloat x)
  else
    z <- py_int unicode_decimal t ;; Ok (PyInt z).

(** The discovery loop over the season tabs: the labels that are integers,
    and a line printed for each of the others. *)
Fixpoint tabs_loop (tabs : list str) (seasons : list Z) : io (list Z) :=
  match tabs with
  | [] => ret seasons
  | tab :: tabs' =>
      match py_int unicode_decimal (strip tab) with
      | Ok season_number => tabs_loop tabs' (seasons ++ [season_number])
      | Raise ValueError =>
          _ <~ emit (Printed (lit "Skipping non-integer season tab: "
                                ++ strip tab)) ;;
          tabs_loop tabs' seasons
      | Raise e => lift (Raise e)
      end
  end.

(** Lines 60 to 68: the seasons to visit. *)
Definition discover_seasons (tabs : list str) : io (list Z) :=
  _ <~ tabs_loop tabs [] ;;
  last_tab <~ lift (last_item tabs) ;;
  n <~ lift (py_int unicode_decimal (strip last_tab)) ;;
  ret (range 1 (n + 1)).

(** The body of the loop over the episode blocks of a season, from the
    counter before the block to the counter after it and the row to append,
    or [None] for [break]. *)
Definition episode_step (season : Z) (counter : Z) (episode : episode_block)
  : result (Z * option episode_data) :=
  t <- text_of (title_div episode) ;;
  let title := strip t in
  first <- index (split separator title) 0 ;;
  episode_number <- py_int unicode_decimal (epnum_sub first) ;;
  let counter := (counter + 1)%Z in
  title <- index (split separator title) 1 ;;
  match rating_star episode with
  | None => Ok (counter, None)
  | Some r =>
      let rating := strip r in
      g <- group1 (ratingmatch_search rating) ;;
      rating_value <- rating_number g ;;
      v <- group1 (votesmatch_search rating) ;;
      votes <- text_to_num v ;;
      d <- text_of (air_date_span episode) ;;
      air_date <-
        match strptime (strip d) with
        | Some a => Ok a
        | None => Raise ValueError
        end ;;
      de <- text_of (description_div episode) ;;
      let description := strip de in
      Ok (counter,
          Some {| season := season;
                  episode_number := episode_number;
                  cumulative_episode_number := counter;
                  title := title;
                  air_date := air_date;
                  rating_value := rating_value;
                  votes := votes;
                  description := description |})
  end.

(** [for episode in episodes: ...], from the counter and the rows so far. *)
Fixpoint episodes_loop (season : Z) (blocks : list episode_block)
    (counter : Z) (rows : list episode_data)
  : result (Z * list episode_data) :=
  match blocks with
  | [] => Ok (counter, rows)
  | episode :: blocks' =>
      step <- episode_step season counter episode ;;
      match step with
      | (counter', Some row) =>
          episodes_loop season blocks' counter' (rows ++ [row])
      | (counter', None) => Ok (counter', rows)
      end
  end.

(** [for season in seasons: ...] *)
Fixpoint seasons_loop (url : str) (seasons : list Z)
    (counter : Z) (rows : list episode_data)
  : io (Z * list episode_data) :=
  match seasons with
  | [] => ret (counter, rows)
  | season :: seasons' =>
      season_html <~ scrape_data (url ++ str_of_int season) ;;
      season_soup <~ lift (soup_of season_html) ;;
      st <~ lift (episodes_loop season (episodes season_soup) counter rows) ;;
      seasons_loop url seasons' (fst st) (snd st)
  end.

Definition parse_data (html_data : str) (url : str)
  : io (list episode_data * series_data * str) :=
  soup <~ lift (soup_of (Some html_data)) ;;
  sr <~ lift (text_of (series_rating_span soup)) ;;
  series_rating <~ lift (rating_number (strip sr)) ;;
  sv <~ lift (text_of (series_votes_div soup)) ;;
  series_votes <~ lift (text_to_num (strip sv)) ;;
  let url := url ++ episodes_suffix in
  season_tab_html <~ scrape_data url ;;
  soup <~ lift (soup_of season_tab_html) ;;
  seasons <~ discover_seasons (seasontabs soup) ;;
  sn <~ lift (text_of (show_name_h2 soup)) ;;
  let show_name := strip sn in
  poster_url <~
    lift match poster_img soup show_name with
         | Some (Some src) => Ok src
         | Some None => Raise KeyError
         | None => Ok (lit "Image not found")
         end ;;
  st <~ seasons_loop url seasons 0 [] ;;
  ret (snd st,
       {| series_rating := series_rating;
          series_votes := series_votes;
          show_name := show_name |},
       poster_url).

(** ** The scrape action of the script (lines 286 to 300), up to the
    hand-over to the presentation *)

Definition scrape_action (url_input : str)
  : io (option (list episode_data * series_data * str)) :=
  _ <~ emit (Printed url_input) ;;
  valid <~ lift (is_valid_imdb_url url_input) ;;
  if valid then
    html_data <~ scrape_data url_input ;;
    match html_data with
    | Some (c :: h) =>
        processed_data <~ parse_data (c :: h) url_input ;;
        _ <~ emit ToastShown ;;
        ret (Some processed_data)
    | _ => _ <~ emit FailedToScrapeShown ;; ret None
    end
  else
    _ <~ emit InvalidUrlShown ;; ret None.

(** A block that yields a row, and one at which the loop breaks. *)
Definition yields_row (season : Z) (episode : episode_block) : Prop :=
  exists row : episode_data,
    episode_step season 0 episode = Ok (1%Z, Some row).

(** The steps of the loop body on the title field go through. *)
Definition title_field_parses (episode : episode_block) : Prop :=
  exists (t first : str) (n : Z) (name : str),
    title_div episode = Some t
    /\ index (split separator (strip t)) 0 = Ok first
    /\ py_int unicode_decimal (epnum_sub first) = Ok n
    /\ index (split separator (strip t)) 1 = Ok name.

End Webapp.

(** ** The invariant of the cumulative numbers *)

Definition cumulative_numbers (rows : list episode_data) : list Z :=
  List.map cumulative_episode_number rows.

(** The numbers [c + 1], ..., [c + n]. *)
Definition numbers_from (c : Z) (n : nat) : list Z :=
  List.map (fun i => (c + Z.of_nat i)%Z) (seq 1 n).

(** The numbers increase strictly and none exceeds the counter. *)
Definition numbered (c : Z) (rows : list episode_data) : Prop :=
  StronglySorted Z.lt (cumulative_numbers rows)
  /\ Forall (fun n => (n <= c)%Z) (cumulative_numbers rows).

(** The characters of a text on which [urlparse] consults none of its
    parameters and cannot raise: ASCII, and no square bracket. *)
Definition plain_char (c : char) : bool :=
  (c <? 128)%N && negb (mem_char c (lit "[]")).

(** ** Values of the parameters for closed examples

    The examples below run the program on ASCII texts without square
    brackets in the network location, on which the interpreter's Unicode
    tables and the check of bracketed hosts are never consulted. *)

(** A Unicode database without decimal digits beyond ASCII. *)
Definition ascii_only : char -> option N := fun _ => None.

Definition sample_bracket_check : str -> bool := fun _ => true.

Definition sample_nfkc : str -> str := fun s => s.

(** [datetime.strptime] on the one air date of the examples; 1 January 2024
    was a Monday. *)
Definition sample_strptime (s : str) : option datetime :=
  if str_eqb s (lit "Mon, Jan 1, 2024")
  then Some {| year := 2024; month := 1; day := 1 |}
  else None.

(** A network and a parser given by tables: a URL that is not listed cannot
    be reached, a markup that is not listed parses to an empty page. *)
Fixpoint assoc {A : Type} (k : str) (table : list (str * A)) : option A :=
  match table with
  | (k', a) :: table' => if str_eqb k k' then Some a else assoc k table'
  | [] => None
  end.

Definition network (table : list (str * get_outcome)) (url : str)
  : get_outcome :=
  match assoc url table with
  | Some outcome => outcome
  | None => RaisesRequestException
  end.

Definition empty_page : document :=
  {| series_rating_span := None;
     series_votes_div := None;
     seasontabs := [];
     show_name_h2 := None;
     poster_img := fun _ => None;
     episodes := [] |}.

Definition parser (table : list (str * document)) (markup : str) : document :=
  match assoc markup table with
  | Some page => page
  | None => empty_page
  end.

(** An episode block with all its fields, and one without a rating. *)
Definition rated_block (title_text : str) : episode_block :=
  {| title_div := Some title_text;
     rating_star := Some (lit "8.5/10 (1.2K)");
     air_date_span := Some (lit "Mon, Jan 1, 2024");
     description_div := Some (lit "Something happens.") |}.

Definition unrated_block (title_text : str) : episode_block :=
  {| title_div := Some title_text;
     rating_star := None;
     air_date_span := Some (lit "Mon, Jan 1, 2024");
     description_div := Some (lit "Not aired yet.") |}.

(** The title field of episode [e] of season [s]. *)
Definition title_field (s e : Z) (name : str) : str :=
  lit "S" ++ str_of_int s ++ lit ".E" ++ str_of_int e ++ separator ++ name.

(** The first [n] episodes of season [s], all rated. *)
Definition rated_blocks (s : Z) (n : nat) : list episode_block :=
  List.map (fun e => rated_block (title_field s (Z.of_nat e) (lit "Title")))
    (seq 1 n).

Definition sample_url : str := lit "https://www.imdb.com/title/tt1234567/".

Definition root_page : document :=
  {| series_rating_span := Some (lit "8.4");
     series_votes_div := Some (lit "12K");
     seasontabs := [];
     show_name_h2 := None;
     poster_img := fun _ => None;
     episodes := [] |}.

Definition index_page (tabs : list str) : document :=
  {| series_rating_span := None;
     series_votes_div := None;
     seasontabs := tabs;
     show_name_h2 := Some (lit "Show");
     poster_img := fun _ => None;
     episodes := [] |}.

Definition season_page (blocks : list episode_block) : document :=
  {| series_rating_span := None;
     series_votes_div := None;
     seasontabs := [];
     show_name_h2 := None;
     poster_img := fun _ => None;
     episodes := blocks |}.

(** A series with two seasons: the pages of its seasons are the parameters. *)
Definition two_season_parser (season1 season2 : list episode_block)
  : str -> document :=
  parser [(lit "root", root_page);
          (lit "index", index_page [lit "1"; lit "2"]);
          (lit "season 1", season_page season1);
          (lit "season 2", season_page season2)].

(** All four pages are served. *)
Definition network_up : str -> get_outcome :=
  network [(sample_url, Response 200 (lit "root"));
           (sample_url ++ episodes_suffix, Response 200 (lit "index"));
           (sample_url ++ episodes_suffix ++ lit "1",
            Response 200 (lit "season 1"));
           (sample_url ++ episodes_suffix ++ lit "2",
            Response 200 (lit "season 2"))].

(** The page of season 1 answers 404. *)
Definition network_season1_404 : str -> get_outcome :=
  network [(sample_url, Response 200 (lit "root"));
           (sample_url ++ episodes_suffix, Response 200 (lit "index"));
           (sample_url ++ episodes_suffix ++ lit "1", Response 404 (lit ""));
           (sample_url ++ episodes_suffix ++ lit "2",
            Response 200 (lit "season 2"))].

(** The root page answers 404. *)
Definition network_root_404 : str -> get_outcome :=
  network [(sample_url, Response 404 (lit ""))].

(** The rows of a result. *)
Definition rows_of {A B : Type}
    (r : io (list episode_data * A * B)) : option (list episode_data) :=
  match r with
  | (_, Ok (rows, _, _)) => Some rows
  | (_, Raise _) => None
  end.

(** ** Notions for the further properties *)

Definition is_infinite (f : spec_float) : bool :=
  match f with
  | S754_infinity _ => true
  | _ => false
  end.

Definition is_nan (f : spec_float) : bool :=
  match f with
  | S754_nan => true
  | _ => false
  end.

(** The messages of [scrape_data]. *)
Definition fetch_error_event (e : event) : bool :=
  match e with
  | HttpErrorShown _ | RequestErrorShown | UnexpectedErrorShown => true
  | _ => false
  end.

Definition printed_event (e : event) : bool :=
  match e with
  | Printed _ => true
  | _ => false
  end.

(** The line printed for a tab that is skipped. *)
Definition skip_line (tab : str) : event :=
  Printed (lit "Skipping non-integer season tab: " ++ strip tab).

(** The label of a tab is an integer for [int()]. *)
Definition integer_label (unicode_decimal : char -> option N) (tab : str)
  : bool :=
  match py_int unicode_decimal (strip tab) with
  | Ok _ => true
  | Raise _ => false
  end.

(** The integers of the labels that are integers. *)
Fixpoint integer_labels (unicode_decimal : char -> option N)
    (tabs : list str) : list Z :=
  match tabs with
  | [] => []
  | tab :: tabs' =>
      match py_int unicode_decimal (strip tab) with
      | Ok n => n :: integer_labels unicode_decimal tabs'
      | Raise _ => integer_labels unicode_decimal tabs'
      end
  end.

(** The episodes-index page answers 404. *)
Definition network_index_404 : str -> get_outcome :=
  network [(sample_url, Response 200 (lit "root"));
           (sample_url ++ episodes_suffix, Response 404 (lit ""))].

(** The root page is served with an empty body. *)
Definition network_root_empty : str -> get_outcome :=
  network [(sample_url, Response 200 (lit ""))].

(** The cumulative number of the row at position [i] (from 0) lies between
    [i + 1] and [i] plus the season of the row. *)
Definition position_bounds (rows : list episode_data) : Prop :=
  forall (i : nat) (row : episode_data),
    nth_error rows i = Some row ->
    (Z.of_nat i + 1 <= cumulative_episode_number row
     <= Z.of_nat i + season row)%Z.

(** Before season [s]: the counter is ahead of the number of rows by at most
    the number of seasons gone through. *)
Definition budget (s c : Z) (rows : list episode_data) : Prop :=
  position_bounds rows
  /\ (Z.of_nat (List.length rows) <= c
      <= Z.of_nat (List.length rows) + s - 1)%Z.

(** The rows of the seasons, season by season. *)
Definition by_season (seasons : list Z) (groups : list (list episode_data))
  : Prop :=
  Forall2 (fun s group => Forall (fun row => season row = s) group)
    seasons groups.

(** A season all of whose episode blocks yield a row, on a page that is
    served. *)
Definition fully_rated (unicode_decimal : char -> option N)
    (strptime : str -> option datetime)
    (requests_get : str -> get_outcome) (BeautifulSoup : str -> document)
    (url : str) (s : Z) : Prop :=
  exists text : str,
    scrape_data requests_get (url ++ str_of_int s) = ([], Ok (Some text))
    /\ Forall (yields_row unicode_decimal strptime s)
         (episodes (BeautifulSoup text)).

(** The episode blocks of the page of season [s], when it is served. *)
Definition season_blocks (requests_get : str -> get_outcome)
    (BeautifulSoup : str -> document) (url : str) (s : Z)
  : list episode_block :=
  match scrape_data requests_get (url ++ str_of_int s) with
  | (_, Ok (Some text)) => episodes (BeautifulSoup text)
  | _ => []
  end.

(** [row] is what the loop body yields for the block [b] of season [s],
    run with the counter that precedes the number of the row. *)
Definition row_of_block (unicode_decimal : char -> option N)
    (strptime : str -> option datetime)
    (s : Z) (b : episode_block) (row : episode_data) : Prop :=
  episode_step unicode_decimal strptime s
    (cumulative_episode_number row - 1) b
  = Ok (cumulative_episode_number row, Some row).

(** A series with a tab that is no number before its two seasons; the
    first season ends with an episode without a rating. *)
Definition specials_parser : str -> document :=
  parser [(lit "root", root_page);
          (lit "index", index_page [lit "Specials"; lit "1"; lit "2"]);
          (lit "season 1",
           season_page
             (rated_blocks 1 2
                ++ [unrated_block (title_field 1 3 (lit "Pending"))]));
          (lit "season 2", season_page (rated_blocks 2 1))].

(** The rows [parse_data] returns for it. *)
Definition sample_rows : list episode_data :=
  Eval vm_compute in
    match rows_of (parse_data ascii_only sample_strptime network_up
                     specials_parser (lit "root") sample_url) with
    | Some rows => rows
    | None => []
    end.

(** A rated block without a description. *)
Definition undescribed_block (title_text : str) : episode_block :=
  {| title_div := Some title_text;
     rating_star := Some (lit "8.5/10 (1.2K)");
     air_date_span := Some (lit "Mon, Jan 1, 2024");
     description_div := None |}.

(** [sep in s] *)
Fixpoint occurs (sep s : str) : bool :=
  match strip_prefix sep s with
  | Some _ => true
  | None =>
      match s with
      | [] => false
      | _ :: s' => occurs sep s'
      end
  end.

(** The bullet operator U+2219 between two blanks. *)
Definition bullet : str := [32; 8729; 32]%N.

(** A rated block with no vote count between the parentheses. *)
Definition unvoted_block (title_text : str) : episode_block :=
  {| title_div := Some title_text;
     rating_star := Some (lit "8.5/10 ()");
     air_date_span := Some (lit "Mon, Jan 1, 2024");
     description_div := Some (lit "Something happens.") |}.

(* ===================================================================== *)
(** * Part II: theorems *)
(* ===================================================================== *)


(** ** Lists and text *)

Lemma last_item_app (A : Type) (l : list A) (a : A) :
  last_item (l ++ [a]) = Ok a.
Proof. unfold last_item. rewrite rev_unit. reflexivity. Qed.

Lemma all_but_last_app (A : Type) (l : list A) (a : A) :
  all_but_last (l ++ [a]) = l.
Proof. apply removelast_last. Qed.

Lemma char_eqb_eq (a b : char) : char_eqb a b = true <-> a = b.
Proof. apply N.eqb_eq. Qed.

Lemma span_app (p : char -> bool) (s : str) :
  fst (span p s) ++ snd (span p s) = s.
Proof.
  induction s as [|c s IH]; simpl; [reflexivity|].
  destruct (p c); [|reflexivity].
  destruct (span p s) as [a b]. simpl in *. now rewrite IH.
Qed.

Lemma span_all (p : char -> bool) (s : str) :
  forallb p (fst (span p s)) = true.
Proof.
  induction s as [|c s IH]; simpl; [reflexivity|].
  destruct (p c) eqn:E; [|reflexivity].
  destruct (span p s) as [a b]. simpl in *. now rewrite E, IH.
Qed.

(** ** Which texts [float()] accepts *)

Lemma take_sign_chars (s : str) :
  exists used, s = used ++ snd (take_sign s) /\ forallb float_char used = true.
Proof.
  destruct s as [|c s]; unfold take_sign.
  - exists []. split; reflexivity.
  - destruct (char_eqb c (ch "-")) eqn:E1.
    + apply char_eqb_eq in E1. subst c. exists [ch "-"]. split; reflexivity.
    + destruct (char_eqb c (ch "+")) eqn:E2.
      * apply char_eqb_eq in E2. subst c. exists [ch "+"]. split; reflexivity.
      * exists []. split; reflexivity.
Qed.

Lemma digit_float_char (c : char) : is_ascii_digit c = true -> float_char c = true.
Proof.
  unfold is_ascii_digit, in_range. intros H.
  apply andb_true_iff in H as [H1 H2].
  apply N.leb_le in H1. apply N.leb_le in H2.
  assert (Hc : (c = 48 \/ c = 49 \/ c = 50 \/ c = 51 \/ c = 52 \/ c = 53
                \/ c = 54 \/ c = 55 \/ c = 56 \/ c = 57)%N) by lia.
  repeat (destruct Hc as [Hc|Hc]; [subst c; reflexivity|]).
  subst c; reflexivity.
Qed.

Lemma digits_float_chars (s : str) :
  forallb is_ascii_digit s = true -> forallb float_char s = true.
Proof.
  induction s as [|c s IH]; simpl; [reflexivity|].
  intros H. apply andb_true_iff in H as [Hc Hs].
  now rewrite (digit_float_char _ Hc), (IH Hs).
Qed.

Lemma span_digits_chars (s : str) :
  exists used,
    s = used ++ snd (span is_ascii_digit s)
    /\ used = fst (span is_ascii_digit s)
    /\ forallb float_char used = true.
Proof.
  exists (fst (span is_ascii_digit s)). split; [|split].
  - symmetry. apply span_app.
  - reflexivity.
  - apply digits_float_chars, span_all.
Qed.

Lemma parse_exponent_chars (s : str) :
  exists used,
    s = used ++ snd (parse_exponent s) /\ forallb float_char used = true.
Proof.
  destruct s as [|c s]; unfold parse_exponent.
  - exists []. split; reflexivity.
  - destruct (char_eqb (to_lower c) (ch "e")) eqn:E.
    + destruct (take_sign_chars s) as (u1 & H1 & F1).
      destruct (take_sign s) as [eneg s2]. simpl in H1.
      destruct (span_digits_chars s2) as (u2 & H2 & H2' & F2).
      destruct (span is_ascii_digit s2) as [ed s3]. simpl in *.
      destruct ed as [|d ed].
      * exists []. split; reflexivity.
      * exists (c :: u1 ++ u2). simpl. split.
        -- rewrite <- app_assoc, <- H2, <- H1. reflexivity.
        -- rewrite forallb_app, F1, F2.
           apply char_eqb_eq in E. unfold float_char. rewrite E. reflexivity.
    + exists []. split; reflexivity.
Qed.

Lemma strtod_chars (s : str) (x : spec_float) (rest : str) :
  strtod s = Some (x, rest) ->
  exists used, s = used ++ rest /\ forallb float_char used = true.
Proof.
  unfold strtod.
  destruct (take_sign_chars s) as (u1 & H1 & F1).
  destruct (take_sign s) as [neg s1]. simpl in H1.
  destruct (span_digits_chars s1) as (u2 & H2 & H2' & F2).
  destruct (span is_ascii_digit s1) as [ip s2]. simpl in H2, H2'. subst u2.
  assert (Hdot : exists u3,
             s2 = u3 ++ snd (match s2 with
                             | c :: r => if char_eqb c (ch ".")
                                         then span is_ascii_digit r
                                         else ([], s2)
                             | [] => ([], s2)
                             end)
             /\ forallb float_char u3 = true).
  { destruct s2 as [|c r]; [exists []; split; reflexivity|].
    destruct (char_eqb c (ch ".")) eqn:E.
    - destruct (span_digits_chars r) as (u & Hu & _ & Fu).
      exists (c :: u). split.
      + rewrite <- app_comm_cons. f_equal. exact Hu.
      + apply char_eqb_eq in E. subst c.
        change (float_char (ch ".") && forallb float_char u = true).
        rewrite Fu. reflexivity.
    - exists []. split; reflexivity. }
  destruct Hdot as (u3 & H3 & F3).
  destruct (match s2 with
            | c :: r => if char_eqb c (ch ".")
                        then span is_ascii_digit r else ([], s2)
            | [] => ([], s2)
            end) as [fp s3]. simpl in H3.
  destruct (ip ++ fp) as [|d ds]; [discriminate|].
  destruct (parse_exponent_chars s3) as (u4 & H4 & F4).
  destruct (parse_exponent s3) as [e s4]. simpl in H4.
  intros H. injection H as _ Hrest. subst s4.
  exists (u1 ++ ip ++ u3 ++ u4). split.
  - rewrite H1, H2, H3, H4 at 1. now rewrite <- !app_assoc.
  - now rewrite !forallb_app, F1, F2, F3, F4.
Qed.

Lemma strip_prefix_app (p s r : str) :
  strip_prefix p s = Some r -> s = p ++ r.
Proof.
  revert s. induction p as [|x p IH]; intros s H; simpl in *.
  - now injection H as <-.
  - destruct s as [|y s]; [discriminate|].
    destruct (char_eqb x y) eqn:E; [|discriminate].
    apply char_eqb_eq in E. subst y. now rewrite (IH _ H).
Qed.

Lemma strip_prefix_nocase_chars (p s r : str) :
  forallb float_char p = true ->
  (forall c, In c p -> to_lower c = c) ->
  strip_prefix_nocase p s = Some r ->
  exists used, s = used ++ r /\ forallb float_char used = true.
Proof.
  intros Fp Hlow. unfold strip_prefix_nocase.
  destruct (strip_prefix p (List.map to_lower (firstn (List.length p) s)))
    as [[|? ?]|] eqn:E; try discriminate.
  intros H. injection H as <-.
  exists (firstn (List.length p) s). split.
  - symmetry. apply firstn_skipn.
  - apply strip_prefix_app in E. rewrite app_nil_r in E.
    rewrite <- E in Fp. clear - Fp Hlow E.
    rewrite forallb_forall in *. intros c Hc.
    specialize (Fp (to_lower c) (in_map _ _ _ Hc)).
    unfold float_char in *.
    rewrite Hlow in Fp; [exact Fp|].
    rewrite <- E. now apply in_map.
Qed.

Lemma lower_fixed (p : str) :
  forallb (fun c => char_eqb (to_lower c) c) p = true ->
  forall c, In c p -> to_lower c = c.
Proof.
  intros H c Hc. rewrite forallb_forall in H.
  now apply char_eqb_eq, H.
Qed.

Lemma parse_inf_or_nan_chars (s : str) (x : spec_float) (rest : str) :
  parse_inf_or_nan s = Some (x, rest) ->
  exists used, s = used ++ rest /\ forallb float_char used = true.
Proof.
  unfold parse_inf_or_nan.
  destruct (take_sign_chars s) as (u1 & H1 & F1).
  destruct (take_sign s) as [neg s1]. simpl in H1.
  destruct (strip_prefix_nocase (lit "inf") s1) as [r|] eqn:Einf.
  - apply strip_prefix_nocase_chars in Einf as (u2 & H2 & F2);
      [|reflexivity|now apply lower_fixed].
    destruct (strip_prefix_nocase (lit "inity") r) as [r'|] eqn:Einity.
    + apply strip_prefix_nocase_chars in Einity as (u3 & H3 & F3);
        [|reflexivity|now apply lower_fixed].
      intros H. injection H as _ <-.
      exists (u1 ++ u2 ++ u3). split.
      * rewrite H1, H2, H3 at 1. now rewrite <- !app_assoc.
      * now rewrite !forallb_app, F1, F2, F3.
    + intros H. injection H as _ <-.
      exists (u1 ++ u2). split.
      * rewrite H1, H2 at 1. now rewrite <- !app_assoc.
      * now rewrite !forallb_app, F1, F2.
  - destruct (strip_prefix_nocase (lit "nan") s1) as [r|] eqn:Enan;
      [|discriminate].
    apply strip_prefix_nocase_chars in Enan as (u2 & H2 & F2);
      [|reflexivity|now apply lower_fixed].
    intros H. injection H as _ <-.
    exists (u1 ++ u2). split.
    + rewrite H1, H2 at 1. now rewrite <- !app_assoc.
    + now rewrite !forallb_app, F1, F2.
Qed.

Lemma lstrip_with_last (p : char -> bool) (s : str) (c : char) :
  p c = false -> exists u, lstrip_with p (s ++ [c]) = u ++ [c].
Proof.
  intros Hc. induction s as [|x s IH]; simpl.
  - rewrite Hc. now exists [].
  - destruct (p x); [exact IH|]. now exists (x :: s).
Qed.

Lemma rstrip_with_last (p : char -> bool) (s : str) (c : char) :
  p c = false -> rstrip_with p (s ++ [c]) = s ++ [c].
Proof.
  intros Hc. unfold rstrip_with. rewrite rev_unit. simpl. rewrite Hc.
  change (c :: rev s) with ([c] ++ rev s).
  now rewrite rev_app_distr, rev_involutive.
Qed.

(** A text whose last character is neither white space nor a character of
    a number is refused. *)
Lemma float_from_string_inner_last (s : str) (c : char) :
  is_c_space c = false -> float_char c = false ->
  float_from_string_inner (s ++ [c]) = Raise ValueError.
Proof.
  intros Hsp Hfc. unfold float_from_string_inner.
  destruct (lstrip_with_last is_c_space s c Hsp) as (u & ->).
  rewrite (rstrip_with_last _ u c Hsp).
  assert (Hbad : forallb float_char (u ++ [c]) = false).
  { rewrite forallb_app. simpl. rewrite Hfc. now rewrite andb_false_r. }
  destruct (u ++ [c]) as [|y body] eqn:Ebody; [reflexivity|].
  destruct (strtod (y :: body)) as [[x rest]|] eqn:Es.
  - destruct rest as [|? ?]; [|reflexivity].
    apply strtod_chars in Es as (used & Hu & Fu).
    rewrite app_nil_r in Hu. subst used. congruence.
  - destruct (parse_inf_or_nan (y :: body)) as [[x rest]|] eqn:Ep;
      [|reflexivity].
    destruct rest as [|? ?]; [|reflexivity].
    apply parse_inf_or_nan_chars in Ep as (used & Hu & Fu).
    rewrite app_nil_r in Hu. subst used. congruence.
Qed.

Lemma drop_underscores_last (s : str) (c : char) :
  forall (prev : option char) (t : str),
    char_eqb c (ch "_") = false ->
    drop_underscores prev (s ++ [c]) = Some t ->
    exists u, t = u ++ [c].
Proof.
  induction s as [|x s IH]; intros prev t Hc H;
    cbn [drop_underscores app] in H.
  - rewrite Hc in H.
    destruct ((match prev with
               | Some p => char_eqb p (ch "_")
               | None => false
               end) && negb (is_ascii_digit c)); [discriminate|].
    destruct (char_eqb c (ch "_")); [discriminate|].
    cbn [option_map] in H. injection H as <-. now exists [].
  - destruct (char_eqb x (ch "_")).
    + destruct prev as [p|]; [|discriminate].
      destruct (is_ascii_digit p); [|discriminate].
      exact (IH _ _ Hc H).
    + destruct ((match prev with
                 | Some p => char_eqb p (ch "_")
                 | None => false
                 end) && negb (is_ascii_digit x)); [discriminate|].
      destruct (drop_underscores (Some x) (s ++ [c])) as [t'|] eqn:E;
        [|discriminate].
      cbn [option_map] in H. injection H as <-.
      destruct (IH _ _ Hc E) as (u & ->). now exists (x :: u).
Qed.

Section FloatRefuses.

Variable unicode_decimal : char -> option N.

Lemma transform_loop_last (s : str) (c : char) :
  (c <? 127)%N = true ->
  exists t c',
    transform_loop unicode_decimal (s ++ [c]) = t ++ [c']
    /\ (c' = c \/ c' = 63%N).
Proof.
  intros Hc. induction s as [|x s IH]; simpl.
  - rewrite Hc. exists [], c. split; [reflexivity|now left].
  - destruct IH as (t & c' & E & Hc').
    destruct (x <? 127)%N.
    + exists (x :: t), c'. rewrite E. split; [reflexivity|exact Hc'].
    + destruct (is_space x).
      * exists (32%N :: t), c'. rewrite E. split; [reflexivity|exact Hc'].
      * destruct (decimal_value unicode_decimal x) as [d|].
        -- exists ((48 + d)%N :: t), c'. rewrite E.
           split; [reflexivity|exact Hc'].
        -- exists [], 63%N. split; [reflexivity|now right].
Qed.

Lemma transform_last (s : str) (c : char) :
  (c <? 127)%N = true ->
  exists t c',
    transform_decimal_and_space unicode_decimal (s ++ [c]) = t ++ [c']
    /\ (c' = c \/ c' = 63%N).
Proof.
  intros Hc. unfold transform_decimal_and_space.
  destruct (forallb (fun c0 => (c0 <? 128)%N) (s ++ [c])).
  - exists s, c. split; [reflexivity|now left].
  - now apply transform_loop_last.
Qed.

(** [float()] raises [ValueError] on every text that ends in an ASCII
    character which is neither white space, nor an underscore, nor a
    character of a number. *)
Lemma py_float_last (s : str) (c : char) :
  (c <? 127)%N = true ->
  is_c_space c = false ->
  char_eqb c (ch "_") = false ->
  float_char c = false ->
  py_float unicode_decimal (s ++ [c]) = Raise ValueError.
Proof.
  intros Hc Hsp Hus Hfc. unfold py_float.
  destruct (transform_last s c Hc) as (t & c' & -> & Hc').
  assert (H' : is_c_space c' = false /\ char_eqb c' (ch "_") = false
               /\ float_char c' = false).
  { destruct Hc' as [->| ->]; [now repeat split|]. now repeat split. }
  destruct H' as (Hsp' & Hus' & Hfc').
  destruct (mem_char (ch "_") (t ++ [c'])).
  - destruct (drop_underscores None (t ++ [c'])) as [t'|] eqn:E;
      [|reflexivity].
    destruct (drop_underscores_last _ _ _ _ Hus' E) as (u & ->).
    now apply float_from_string_inner_last.
  - now apply float_from_string_inner_last.
Qed.

End FloatRefuses.

(** ** [text_to_num] *)

Section TextToNum.

Variable unicode_decimal : char -> option N.


Lemma text_to_num_last (body : str) (c : char) :
  text_to_num unicode_decimal (body ++ [c]) =
    match dict_get [c] dic with
    | Some mag =>
        x <- py_float unicode_decimal body ;;
        p <- float_mul_int x mag ;;
        z <- int_of_float p ;;
        Ok (PyInt z)
    | None => x <- py_float unicode_decimal (body ++ [c]) ;; Ok (PyFloat x)
    end.
Proof.
  unfold text_to_num.
  rewrite last_item_app, all_but_last_app. reflexivity.
Qed.

Lemma dict_get_dic (c : char) :
  dict_get [c] dic =
    if char_eqb c (ch "K") then Some 1000%Z
    else if char_eqb c (ch "M") then Some 1000000%Z
    else None.
Proof.
  unfold dic, dict_get, lit, str_eqb. simpl.
  change (N_of_ascii "K") with (ch "K"). change (N_of_ascii "M") with (ch "M").
  rewrite !andb_true_r. reflexivity.
Qed.

(** [int()] of a float that is a whole number is that number. *)
Lemma int_of_float_integral (p : spec_float) (z : Z) :
  float_integer_value p = Some z -> int_of_float p = Ok z.
Proof.
  destruct p as [s|s| |s m e]; cbn [float_integer_value int_of_float];
    try discriminate.
  - intros H. injection H as <-. reflexivity.
  - destruct (0 <=? e)%Z.
    + intros H. injection H as <-. reflexivity.
    + destruct (Z.pos m mod 2 ^ (- e) =? 0)%Z; [|discriminate].
      intros H. injection H as <-. reflexivity.
Qed.

(** C5, as the code has it: a text that ends in [K] (or [M]) has its
    leading part parsed by [float()] and multiplied by 1000 (or 1000000),
    the integer part of the product being returned; any other non-empty
    text is parsed whole by [float()]. In particular ["12K"] gives 12000,
    ["3.4M"] gives a number equal to [3400000.0], and ["57"] gives the float
    [57.0]. Whenever the product is a whole number, the result is equal to
    it. *)
Theorem text_to_num_by_suffix :
  (forall body : str,
      text_to_num unicode_decimal (body ++ lit "K") =
        (x <- py_float unicode_decimal body ;;
         p <- float_mul_int x 1000 ;;
         z <- int_of_float p ;;
         Ok (PyInt z)))
  /\ (forall body : str,
      text_to_num unicode_decimal (body ++ lit "M") =
        (x <- py_float unicode_decimal body ;;
         p <- float_mul_int x 1000000 ;;
         z <- int_of_float p ;;
         Ok (PyInt z)))
  /\ (forall (body : str) (c : char),
      char_eqb c (ch "K") = false ->
      char_eqb c (ch "M") = false ->
      text_to_num unicode_decimal (body ++ [c]) =
        (x <- py_float unicode_decimal (body ++ [c]) ;; Ok (PyFloat x)))
  /\ text_to_num unicode_decimal (lit "12K") = Ok (PyInt 12000)
  /\ (exists v f,
        text_to_num unicode_decimal (lit "3.4M") = Ok v
        /\ py_float unicode_decimal (lit "3400000.0") = Ok f
        /\ py_eq v (PyFloat f) = true)
  /\ (exists f,
        text_to_num unicode_decimal (lit "57") = Ok (PyFloat f)
        /\ py_float unicode_decimal (lit "57.0") = Ok f
        /\ float_integer_value f = Some 57%Z)
  /\ (forall (body : str) (c : char) (mag : Z) (x p : spec_float) (z : Z),
        dict_get [c] dic = Some mag ->
        py_float unicode_decimal body = Ok x ->
        float_mul_int x mag = Ok p ->
        float_integer_value p = Some z ->
        text_to_num unicode_decimal (body ++ [c]) = Ok (PyInt z)
        /\ py_eq (PyInt z) (PyFloat p) = true).
Proof.
  split; [|split; [|split; [|split; [|split; [|split]]]]].
  - intros body. change (lit "K") with [ch "K"].
    rewrite text_to_num_last, dict_get_dic. reflexivity.
  - intros body. change (lit "M") with [ch "M"].
    rewrite text_to_num_last, dict_get_dic. reflexivity.
  - intros body c HK HM.
    rewrite text_to_num_last, dict_get_dic, HK, HM. reflexivity.
  - vm_compute. reflexivity.
  - exists (PyInt 3400000), (S754_finite false 7301444403200000 (-31)).
    split; [|split]; vm_compute; reflexivity.
  - exists (S754_finite false 8022036836253696 (-47)).
    split; [|split]; vm_compute; reflexivity.
  - intros body c mag x p z Hmag Hx Hp Hz.
    rewrite text_to_num_last, Hmag, Hx. cbn [bind]. rewrite Hp. cbn [bind].
    rewrite (int_of_float_integral p z Hz). split; [reflexivity|].
    cbn [py_eq]. rewrite Hz. apply Z.eqb_refl.
Qed.

Lemma int_of_float_truncates (f : spec_float) (q : QArith_base.Q) :
  float_to_Q f = Some q -> int_of_float f = Ok (truncate q).
Proof.
  destruct f as [s|s| |s m e]; cbn [float_to_Q int_of_float];
    try discriminate.
  - intros H. injection H as <-. reflexivity.
  - intros H. injection H as <-. unfold truncate.
    destruct (0 <=? e)%Z eqn:He.
    + cbn [QArith_base.inject_Z QArith_base.Qnum QArith_base.Qden].
      rewrite Z.quot_1_r. destruct s; [|reflexivity].
      rewrite <- Z.mul_opp_l. reflexivity.
    + cbn [QArith_base.Qnum QArith_base.Qden].
      apply Z.leb_gt in He.
      assert (Hp : Z.pos (2 ^ Z.to_pos (- e)) = (2 ^ (- e))%Z).
      { rewrite Pos2Z.inj_pow, Z2Pos.id by lia. reflexivity. }
      rewrite Hp.
      assert (H2 : (0 < 2 ^ (- e))%Z) by (apply Z.pow_pos_nonneg; lia).
      destruct s.
      * change (Z.neg m) with (- Z.pos m)%Z.
        rewrite Z.quot_opp_l by lia.
        rewrite Z.quot_div_nonneg by lia. reflexivity.
      * rewrite Z.quot_div_nonneg by lia. reflexivity.
Qed.

(** C6, as the code has it: a text with a magnitude suffix yields an [int],
    the floating-point product of its leading decimal and the magnitude
    rounded toward zero; the fraction of the product is dropped. *)
Theorem text_to_num_suffix_truncates (body : str) (c : char) (mag : Z) :
  dict_get [c] dic = Some mag ->
  (forall v : pynum,
      text_to_num unicode_decimal (body ++ [c]) = Ok v ->
      exists x p q,
        py_float unicode_decimal body = Ok x
        /\ float_mul_int x mag = Ok p
        /\ float_to_Q p = Some q
        /\ v = PyInt (truncate q))
  /\ (forall x p q,
      py_float unicode_decimal body = Ok x ->
      float_mul_int x mag = Ok p ->
      float_to_Q p = Some q ->
      text_to_num unicode_decimal (body ++ [c]) = Ok (PyInt (truncate q))).
Proof.
  intros Hmag. rewrite text_to_num_last, Hmag. split.
  - intros v H.
    destruct (py_float unicode_decimal body) as [x|] eqn:Ex; [|discriminate].
    cbn [bind] in H.
    destruct (float_mul_int x mag) as [p|] eqn:Ep; [|discriminate].
    cbn [bind] in H.
    destruct (float_to_Q p) as [q|] eqn:Eq.
    + rewrite (int_of_float_truncates p q Eq) in H. cbn [bind] in H.
      injection H as <-. now exists x, p, q.
    + destruct p; simpl in Eq, H; discriminate.
  - intros x p q Ex Ep Eq. rewrite Ex. cbn [bind]. rewrite Ep. cbn [bind].
    rewrite (int_of_float_truncates p q Eq). reflexivity.
Qed.

(** C10: the suffix is recognised in upper case only, and the text must not
    be empty: a text that ends in [k] or [m] raises [ValueError] (so ["12k"]
    does, where ["12K"] gives 12000), and the empty text raises
    [IndexError]. *)
Theorem text_to_num_lowercase_and_empty :
  (forall body : str,
      text_to_num unicode_decimal (body ++ lit "k") = Raise ValueError)
  /\ (forall body : str,
      text_to_num unicode_decimal (body ++ lit "m") = Raise ValueError)
  /\ text_to_num unicode_decimal (lit "12k") = Raise ValueError
  /\ text_to_num unicode_decimal (lit "12K") = Ok (PyInt 12000)
  /\ text_to_num unicode_decimal (lit "") = Raise IndexError.
Proof.
  assert (Hk : forall body : str,
             text_to_num unicode_decimal (body ++ lit "k") = Raise ValueError).
  { intros body. change (lit "k") with [ch "k"].
    rewrite text_to_num_last, dict_get_dic.
    change (char_eqb (ch "k") (ch "K")) with false.
    change (char_eqb (ch "k") (ch "M")) with false. cbv iota.
    rewrite py_float_last by reflexivity. reflexivity. }
  split; [exact Hk|]. split; [|split; [|split]].
  - intros body. change (lit "m") with [ch "m"].
    rewrite text_to_num_last, dict_get_dic.
    change (char_eqb (ch "m") (ch "K")) with false.
    change (char_eqb (ch "m") (ch "M")) with false. cbv iota.
    rewrite py_float_last by reflexivity. reflexivity.
  - exact (Hk (lit "12")).
  - vm_compute. reflexivity.
  - reflexivity.
Qed.

End TextToNum.


Lemma text_to_num_by_suffix_witness :
  text_to_num ascii_only (lit "5" ++ [ch "7"]) =
    (x <- py_float ascii_only (lit "5" ++ [ch "7"]) ;; Ok (PyFloat x)).
Proof.
  apply (proj1 (proj2 (proj2 (text_to_num_by_suffix ascii_only))));
    reflexivity.
Defined.

Lemma text_to_num_suffix_truncates_witness :
  text_to_num ascii_only (lit "1.2345" ++ [ch "K"]) = Ok (PyInt 1234).
Proof.
  apply (proj2 (text_to_num_suffix_truncates ascii_only (lit "1.2345")
                  (ch "K") 1000 eq_refl)
           (S754_finite false 5559693739988877 (-52))
           (S754_finite false 5429388417957888 (-42))
           (QArith_base.Qmake 5429388417957888 (2 ^ 42)));
    vm_compute; reflexivity.
Defined.

(** C6, as the claim states it, fails: the product of [1.2345] and 1000 is
    the float [1234.5], which is not an integer, and the result is the
    [int] 1234, which differs from it. *)
Lemma text_to_num_drops_fraction :
  py_float ascii_only (lit "1.2345")
    = Ok (S754_finite false 5559693739988877 (-52))
  /\ float_mul_int (S754_finite false 5559693739988877 (-52)) 1000
    = Ok (S754_finite false 5429388417957888 (-42))
  /\ float_integer_value (S754_finite false 5429388417957888 (-42)) = None
  /\ text_to_num ascii_only (lit "1.2345K") = Ok (PyInt 1234)
  /\ py_eq (PyInt 1234) (PyFloat (S754_finite false 5429388417957888 (-42)))
     = false.
Proof. repeat split; vm_compute; reflexivity. Qed.

(** C5, as the claim states it, fails: the leading part [0.0004] times 1000
    is the float [0.4], and the result is the [int] 0, which differs from
    the product. *)
Lemma text_to_num_suffix_not_product :
  py_float ascii_only (lit "0.0004")
    = Ok (S754_finite false 7378697629483821 (-64))
  /\ float_mul_int (S754_finite false 7378697629483821 (-64)) 1000
    = Ok (S754_finite false 7205759403792794 (-54))
  /\ py_float ascii_only (lit "0.4")
    = Ok (S754_finite false 7205759403792794 (-54))
  /\ text_to_num ascii_only (lit "0.0004K") = Ok (PyInt 0)
  /\ py_eq (PyInt 0) (PyFloat (S754_finite false 7205759403792794 (-54)))
     = false.
Proof. repeat split; vm_compute; reflexivity. Qed.

(** ** Regular expressions: the matcher decides the language *)

Lemma lang_nil_nullable (r : regex) (s : str) :
  lang r s -> s = [] -> nullable r = true.
Proof.
  induction 1 as [| | | r1 r2 s1 s2 _ IH1 _ IH2 | r1 r2 s _ IH
                 | r1 r2 s _ IH | | ]; intros E; try discriminate;
    try reflexivity; simpl.
  - apply app_eq_nil in E as [E1 E2]. now rewrite IH1, IH2.
  - now rewrite IH.
  - rewrite IH by assumption. apply orb_true_r.
Qed.

Lemma nullable_lang (r : regex) : nullable r = true <-> lang r [].
Proof.
  split; [|intros H; exact (lang_nil_nullable r [] H eq_refl)].
  induction r as [| | | |r1 IH1 r2 IH2|r1 IH1 r2 IH2|r IH]; simpl; intros H;
    try discriminate.
  - constructor.
  - apply andb_true_iff in H as [H1 H2].
    change (@nil char) with (@nil char ++ []). constructor; auto.
  - apply orb_true_iff in H as [H|H];
      [apply lang_or_l|apply lang_or_r]; auto.
  - constructor.
Qed.

Lemma deriv_sound (a : char) (r : regex) :
  forall s, lang (deriv a r) s -> lang r (a :: s).
Proof.
  induction r as [| | c | p |r1 IH1 r2 IH2|r1 IH1 r2 IH2|r IH];
    simpl; intros s H.
  - inversion H.
  - inversion H.
  - destruct (char_eqb a c) eqn:E; inversion H; subst.
    apply char_eqb_eq in E. subst. constructor.
  - destruct (p a) eqn:E; inversion H; subst. now constructor.
  - destruct (nullable r1) eqn:N.
    + inversion H as [| | | | ? ? ? H' | ? ? ? H' | | ]; subst.
      * inversion H' as [| | |? ? s1 s2 Ha Hb | | | | ]; subst.
        change (a :: s1 ++ s2) with ((a :: s1) ++ s2). constructor; auto.
      * change (a :: s) with ([] ++ a :: s). constructor; auto.
        now apply nullable_lang.
    + inversion H as [| | |? ? s1 s2 Ha Hb | | | | ]; subst.
      change (a :: s1 ++ s2) with ((a :: s1) ++ s2). constructor; auto.
  - inversion H; subst; [apply lang_or_l|apply lang_or_r]; auto.
  - inversion H as [| | |? ? s1 s2 Ha Hb | | | | ]; subst.
    change (a :: s1 ++ s2) with ((a :: s1) ++ s2). constructor; auto.
Qed.

Lemma deriv_complete (a : char) (r : regex) (w : str) :
  lang r w -> forall s, w = a :: s -> lang (deriv a r) s.
Proof.
  induction 1 as [| c | p c Hp | r1 r2 s1 s2 H1 IH1 H2 IH2 | r1 r2 w H IH
                 | r1 r2 w H IH | r | r s1 s2 H1 IH1 H2 IH2];
    intros s E; simpl.
  - discriminate.
  - injection E as -> <-. unfold char_eqb. rewrite N.eqb_refl. constructor.
  - injection E as -> <-. rewrite Hp. constructor.
  - destruct s1 as [|x s1]; simpl in E.
    + rewrite (lang_nil_nullable r1 [] H1 eq_refl). apply lang_or_r. auto.
    + injection E as -> <-.
      destruct (nullable r1); [apply lang_or_l|]; constructor; auto.
  - apply lang_or_l. auto.
  - apply lang_or_r. auto.
  - discriminate.
  - destruct s1 as [|x s1]; simpl in E.
    + exact (IH2 s E).
    + injection E as -> <-. constructor; auto.
Qed.

Lemma accepts_lang (r : regex) (s : str) : accepts r s = true <-> lang r s.
Proof.
  revert r. induction s as [|a s IH]; intros r; simpl.
  - apply nullable_lang.
  - rewrite IH. split; [apply deriv_sound|].
    intros H. exact (deriv_complete a r (a :: s) H s eq_refl).
Qed.

Lemma lang_seq_inv (r1 r2 : regex) (s : str) :
  lang (Seq r1 r2) s <->
  exists s1 s2, s = s1 ++ s2 /\ lang r1 s1 /\ lang r2 s2.
Proof.
  split.
  - intros H. inversion H; subst. eauto.
  - intros (s1 & s2 & -> & H1 & H2). now constructor.
Qed.

Lemma lang_word (w s : str) : lang (word w) s <-> s = w.
Proof.
  revert s. induction w as [|c w IH]; intros s; simpl.
  - split; [intros H; now inversion H|intros ->; constructor].
  - rewrite lang_seq_inv. split.
    + intros (s1 & s2 & -> & H1 & H2). inversion H1; subst.
      apply IH in H2. now subst.
    + intros ->. exists [c], w. repeat split; [constructor|now apply IH].
Qed.

Lemma lang_many_class (p : char -> bool) (s : str) :
  lang (Many (Class p)) s <-> forallb p s = true.
Proof.
  split.
  - remember (Many (Class p)) as r eqn:Er. intros H.
    induction H as [| | | | | | r' | r' s1 s2 H1 _ H2 IH2]; try discriminate.
    + reflexivity.
    + injection Er as ->. inversion H1; subst. simpl.
      rewrite IH2 by reflexivity. now rewrite andb_true_r.
  - induction s as [|c s IH]; simpl; intros H; [constructor|].
    apply andb_true_iff in H as [Hc Hs].
    change (c :: s) with ([c] ++ s). constructor; [now constructor|auto].
Qed.

Lemma lang_plus_class (p : char -> bool) (s : str) :
  lang (plus (Class p)) s <-> s <> [] /\ forallb p s = true.
Proof.
  unfold plus. rewrite lang_seq_inv. split.
  - intros (s1 & s2 & -> & H1 & H2). inversion H1; subst.
    apply lang_many_class in H2. simpl. split; [discriminate|].
    now rewrite H2, andb_true_r.
  - intros [Hn H]. destruct s as [|c s]; [congruence|].
    simpl in H. apply andb_true_iff in H as [Hc Hs].
    exists [c], s. repeat split; [now constructor|now apply lang_many_class].
Qed.

Lemma lang_dollar (s : str) : lang dollar s <-> s = [] \/ s = [10%N].
Proof.
  unfold dollar. split.
  - intros H. inversion H as [| | | | ? ? ? H' | ? ? ? H' | | ]; subst;
      inversion H'; subst; auto.
  - intros [->| ->]; [apply lang_or_l|apply lang_or_r]; constructor.
Qed.

(** ** [is_valid_imdb_url] *)

Lemma filter_all (A : Type) (f : A -> bool) (l : list A) :
  forallb f l = true -> filter f l = l.
Proof.
  induction l as [|a l IH]; simpl; [reflexivity|].
  intros H. apply andb_true_iff in H as [Ha Hl]. now rewrite Ha, IH.
Qed.

Section Validator.

Variable unicode_decimal : char -> option N.
Variable bracketed_netloc_ok : str -> bool.
Variable nfkc : str -> str.

Lemma is_decimal_not_unsafe (c : char) :
  is_decimal unicode_decimal c = true -> negb (unsafe_url_byte c) = true.
Proof.
  unfold is_decimal, decimal_value, ascii_digit_value, is_ascii_digit,
    in_range, unsafe_url_byte.
  destruct (c <? 128)%N eqn:E128.
  - destruct ((48 <=? c)%N && (c <=? 57)%N) eqn:Ed; [|discriminate].
    intros _. apply andb_true_iff in Ed as [H1 _]. apply N.leb_le in H1.
    destruct (N.eqb_spec c 9); [lia|]. destruct (N.eqb_spec c 13); [lia|].
    destruct (N.eqb_spec c 10); [lia|]. reflexivity.
  - intros _. apply N.ltb_ge in E128.
    destruct (N.eqb_spec c 9); [lia|]. destruct (N.eqb_spec c 13); [lia|].
    destruct (N.eqb_spec c 10); [lia|]. reflexivity.
Qed.

Lemma decimals_not_unsafe (ds : str) :
  forallb (is_decimal unicode_decimal) ds = true ->
  forallb (fun c => negb (unsafe_url_byte c)) ds = true.
Proof.
  induction ds as [|c ds IH]; simpl; [reflexivity|].
  intros H. apply andb_true_iff in H as [Hc Hds].
  now rewrite (is_decimal_not_unsafe c Hc), IH.
Qed.

(** [urlparse] on a URL of the site: no exception, and both parts are
    there. *)
Lemma urlparse_imdb (rest : str) :
  forallb (fun c => negb (unsafe_url_byte c)) rest = true ->
  urlparse bracketed_netloc_ok nfkc (lit "https://www.imdb.com/" ++ rest)
  = Ok {| scheme := lit "https"; netloc := lit "www.imdb.com" |}.
Proof.
  intros Hrest. unfold urlparse.
  set (p := lit "https://www.imdb.com/"). vm_compute in p. subst p.
  cbn [app lstrip_with c0_control_or_space N.leb N.compare Pos.compare
         Pos.compare_cont].
  cbn [filter unsafe_url_byte N.eqb Pos.eqb negb orb].
  rewrite (filter_all _ _ _ Hrest).
  reflexivity.
Qed.

Lemma accepts_url_pattern (s : str) :
  accepts (url_pattern unicode_decimal) s = true <->
  exists ds tail,
    s = lit "https://www.imdb.com/title/tt" ++ ds
          ++ lit "/episodes/?season=" ++ tail
    /\ ds <> []
    /\ forallb (is_decimal unicode_decimal) ds = true
    /\ (tail = [] \/ tail = [10%N]).
Proof.
  rewrite accepts_lang. unfold url_pattern. split.
  - intros H.
    apply lang_seq_inv in H as (s1 & r1 & -> & H1 & H).
    apply lang_seq_inv in H as (ds & r2 & -> & H2 & H).
    apply lang_seq_inv in H as (s3 & tail & -> & H3 & H4).
    apply lang_word in H1, H3. subst s1 s3.
    apply lang_plus_class in H2 as [Hne Hds]. apply lang_dollar in H4.
    exists ds, tail. auto.
  - intros (ds & tail & -> & Hne & Hds & Htail).
    apply lang_seq_inv. eexists _, _. split; [reflexivity|].
    split; [now apply lang_word|].
    apply lang_seq_inv. eexists _, _. split; [reflexivity|].
    split; [now apply lang_plus_class|].
    apply lang_seq_inv. eexists _, _. split; [reflexivity|].
    split; [now apply lang_word|now apply lang_dollar].
Qed.

(** The validator says yes exactly on the URLs of the form
    [https://www.imdb.com/title/tt<digits>/]. *)
Lemma is_valid_imdb_url_true (url : str) :
  is_valid_imdb_url unicode_decimal bracketed_netloc_ok nfkc url = Ok true
  <-> imdb_title_url unicode_decimal url.
Proof.
  unfold is_valid_imdb_url, imdb_title_url. split.
  - destruct (urlparse bracketed_netloc_ok nfkc (url ++ episodes_suffix))
      as [parsed|]; [|discriminate].
    cbn [bind].
    destruct (negb (truthy (scheme parsed) && truthy (netloc parsed)));
      [discriminate|].
    intros H. injection H as H.
    apply accepts_url_pattern in H as (ds & tail & E & Hne & Hds & Htail).
    exists ds. split; [exact Hne|]. split; [exact Hds|].
    change (lit "/episodes/?season=") with (lit "/" ++ episodes_suffix) in E.
    destruct Htail as [->| ->].
    + rewrite app_nil_r, !app_assoc in E. apply app_inv_tail in E.
      now rewrite <- app_assoc in E.
    + exfalso. apply (f_equal (@rev char)) in E.
      rewrite !rev_app_distr in E. discriminate E.
  - intros (ds & Hne & Hds & ->).
    replace ((lit "https://www.imdb.com/title/tt" ++ ds ++ lit "/")
               ++ episodes_suffix)
      with (lit "https://www.imdb.com/"
              ++ (lit "title/tt" ++ ds ++ lit "/episodes/?season="))
      by (now rewrite <- !app_assoc).
    rewrite urlparse_imdb.
    + cbn [bind scheme netloc]. change (negb _) with false. cbv iota.
      f_equal. apply accepts_url_pattern. exists ds, [].
      rewrite app_nil_r. split; [reflexivity|auto].
    + rewrite !forallb_app, (decimals_not_unsafe ds Hds). reflexivity.
Qed.

Lemma forallb_lstrip_with (P p : char -> bool) (s : str) :
  forallb P s = true -> forallb P (lstrip_with p s) = true.
Proof.
  induction s as [|c s IH]; cbn [lstrip_with]; [auto|].
  intros H. destruct (p c); [|exact H].
  cbn [forallb] in H. apply andb_true_iff in H as [_ H]. auto.
Qed.

Lemma forallb_filter (P f : char -> bool) (s : str) :
  forallb P s = true -> forallb P (filter f s) = true.
Proof.
  induction s as [|c s IH]; cbn [filter forallb]; [auto|].
  intros H. apply andb_true_iff in H as [Hc H].
  destruct (f c); cbn [forallb]; [rewrite Hc|]; auto.
Qed.

Lemma forallb_span (P p : char -> bool) (s : str) :
  forallb P s = true ->
  forallb P (fst (span p s)) = true /\ forallb P (snd (span p s)) = true.
Proof.
  intros H. rewrite <- (span_app p s), forallb_app in H.
  now apply andb_true_iff in H.
Qed.

Lemma forallb_split_scheme (P : char -> bool) (url : str) :
  forallb P url = true -> forallb P (snd (split_scheme url)) = true.
Proof.
  intros H. unfold split_scheme.
  destruct (forallb_span P (fun c => negb (char_eqb c (ch ":"))) url H)
    as [_ Hrest].
  destruct (span _ url) as [before rest]. cbn [snd] in Hrest.
  destruct before as [|c0 before]; [exact H|].
  destruct rest as [|colon after]; [exact H|].
  destruct (is_ascii_alpha c0 && forallb scheme_char (c0 :: before));
    [|exact H].
  cbn [snd]. cbn [forallb] in Hrest.
  now apply andb_true_iff in Hrest as [_ Hrest].
Qed.

Lemma plain_no_bracket (c : char) (s : str) :
  forallb plain_char s = true ->
  mem_char c (lit "[]") = true ->
  mem_char c s = false.
Proof.
  intros Hs Hc.
  destruct (mem_char c s) eqn:E; [|reflexivity]. unfold mem_char in E.
  apply existsb_exists in E as (x & Hx & Hcx).
  apply char_eqb_eq in Hcx. subst x.
  rewrite forallb_forall in Hs. specialize (Hs c Hx).
  unfold plain_char in Hs. rewrite Hc in Hs.
  now rewrite andb_false_r in Hs.
Qed.

Lemma plain_ascii (s : str) :
  forallb plain_char s = true -> forallb (fun c => (c <? 128)%N) s = true.
Proof.
  induction s as [|c s IH]; cbn [forallb]; [auto|].
  intros H. apply andb_true_iff in H as [Hc H].
  unfold plain_char in Hc. apply andb_true_iff in Hc as [Hc _].
  now rewrite Hc, IH.
Qed.

(** On an ASCII text without square brackets [urlparse] does not raise. *)
Lemma urlparse_plain (url : str) :
  forallb plain_char url = true ->
  exists parsed, urlparse bracketed_netloc_ok nfkc url = Ok parsed.
Proof.
  intros H. unfold urlparse.
  apply (forallb_lstrip_with plain_char c0_control_or_space) in H.
  apply (forallb_filter plain_char (fun c => negb (unsafe_url_byte c))) in H.
  apply forallb_split_scheme in H.
  destruct (split_scheme _) as [sch rest]. cbn [snd] in H.
  assert (Hnl : forall nl r, splitnetloc rest = Some (nl, r) ->
                             forallb plain_char nl = true).
  { unfold splitnetloc. intros nl r.
    destruct rest as [|a [|b rest]]; try discriminate.
    destruct (char_eqb a (ch "/") && char_eqb b (ch "/")); [|discriminate].
    cbn [forallb] in H. apply andb_true_iff in H as [_ H].
    apply andb_true_iff in H as [_ H].
    destruct (forallb_span plain_char
                (fun c => negb (mem_char c (lit "/?#"))) rest H) as [Hf _].
    intros E. injection E as E. apply (f_equal fst) in E. cbn [fst] in E.
    rewrite <- E. exact Hf. }
  destruct (splitnetloc rest) as [[nl r]|].
  - specialize (Hnl nl r eq_refl).
    rewrite (plain_no_bracket (ch "[") nl Hnl eq_refl).
    rewrite (plain_no_bracket (ch "]") nl Hnl eq_refl).
    cbn [andb orb negb bind]. unfold checknetloc.
    destruct nl as [|c nl]; [cbn [bind]; eauto|].
    rewrite (plain_ascii (c :: nl) Hnl). cbn [bind]. eauto.
  - cbn [bind checknetloc]. eauto.
Qed.

(** C7, as the code has it: the validator returns a boolean, which is true
    exactly on the URLs of the form [https://www.imdb.com/title/tt<digits>/]
    and false on every other text, unless [urlparse] raises [ValueError] on
    the text with the suffix appended, which the validator lets through to
    its caller. It does return a boolean on every ASCII text without square
    brackets. *)
Theorem is_valid_imdb_url_result (url : str) :
  (is_valid_imdb_url unicode_decimal bracketed_netloc_ok nfkc url = Ok true
   <-> imdb_title_url unicode_decimal url)
  /\ (is_valid_imdb_url unicode_decimal bracketed_netloc_ok nfkc url
        = Ok true
      \/ is_valid_imdb_url unicode_decimal bracketed_netloc_ok nfkc url
        = Ok false
      \/ (is_valid_imdb_url unicode_decimal bracketed_netloc_ok nfkc url
            = Raise ValueError
          /\ urlparse bracketed_netloc_ok nfkc (url ++ episodes_suffix)
            = Raise ValueError))
  /\ (forallb plain_char url = true ->
      exists b : bool,
        is_valid_imdb_url unicode_decimal bracketed_netloc_ok nfkc url
        = Ok b).
Proof.
  split; [apply is_valid_imdb_url_true|]. split.
  2:{ intros Hplain. unfold is_valid_imdb_url.
      destruct (urlparse_plain (url ++ episodes_suffix)) as (parsed & ->).
      - rewrite forallb_app, Hplain. reflexivity.
      - cbn [bind]. destruct (negb _); eauto. }
  unfold is_valid_imdb_url.
  destruct (urlparse bracketed_netloc_ok nfkc (url ++ episodes_suffix))
    as [parsed|e] eqn:E.
  - cbn [bind].
    destruct (negb (truthy (scheme parsed) && truthy (netloc parsed)));
      [now right; left|].
    destruct (accepts (url_pattern unicode_decimal) (url ++ episodes_suffix));
      [now left|now right; left].
  - right; right. cbn [bind].
    assert (He : e = ValueError); [|now subst e].
    revert E. unfold urlparse.
    destruct (split_scheme _) as [sch rest].
    destruct (splitnetloc rest) as [[nl r]|].
    + destruct ((mem_char (ch "[") nl && negb (mem_char (ch "]") nl))
                || (mem_char (ch "]") nl && negb (mem_char (ch "[") nl))).
      * cbn [bind]. congruence.
      * destruct (mem_char (ch "[") nl && mem_char (ch "]") nl
                  && negb (bracketed_netloc_ok nl)).
        -- cbn [bind]. congruence.
        -- cbn [bind]. unfold checknetloc.
           destruct nl as [|? ?]; [discriminate|].
           destruct (forallb _ _); [discriminate|].
           destruct (str_eqb _ _); [discriminate|].
           destruct (existsb _ _); [|discriminate].
           cbn [bind]. congruence.
    + cbn [bind checknetloc]. discriminate.
Qed.

(** C8: the accepted and the three rejected inputs. *)
Theorem is_valid_imdb_url_examples :
  is_valid_imdb_url unicode_decimal bracketed_netloc_ok nfkc
    (lit "https://www.imdb.com/title/tt1234567/") = Ok true
  /\ is_valid_imdb_url unicode_decimal bracketed_netloc_ok nfkc
    (lit "http://example.com/title/tt1234567/") = Ok false
  /\ is_valid_imdb_url unicode_decimal bracketed_netloc_ok nfkc
    (lit "https://www.imdb.com/title/tt1234567") = Ok false
  /\ is_valid_imdb_url unicode_decimal bracketed_netloc_ok nfkc
    (lit "ftp://www.imdb.com/title/tt1234567/") = Ok false.
Proof. repeat split; vm_compute; reflexivity. Qed.

(** [urlparse] raises on a network location with an opening square bracket
    and no closing one, whatever the parameters. *)
Lemma is_valid_imdb_url_raises :
  is_valid_imdb_url unicode_decimal bracketed_netloc_ok nfkc
    (lit "https://[") = Raise ValueError.
Proof. vm_compute. reflexivity. Qed.

End Validator.

Lemma is_valid_imdb_url_result_witness :
  imdb_title_url ascii_only (lit "https://www.imdb.com/title/tt1234567/").
Proof.
  apply (proj1 (proj1 (is_valid_imdb_url_result ascii_only
                         sample_bracket_check sample_nfkc
                         (lit "https://www.imdb.com/title/tt1234567/")))).
  vm_compute. reflexivity.
Defined.

(** C7, as the claim states it, fails: on the text [https://[] the
    validator raises [ValueError], it does not return a boolean. *)
Lemma is_valid_imdb_url_can_raise :
  is_valid_imdb_url ascii_only sample_bracket_check sample_nfkc
    (lit "https://[") = Raise ValueError.
Proof. vm_compute. reflexivity. Qed.

(** ** The loop over the episode blocks *)

Section Extraction.

Variable unicode_decimal : char -> option N.
Variable strptime : str -> option datetime.

(** Case analysis on the next step of a computation that may raise. *)
Ltac next_step H :=
  match type of H with
  | bind ?c _ = _ =>
      let E := fresh "E" in
      destruct c eqn:E; cbn [bind] in H; [|discriminate H]
  end.

(** A step that returns has counted its block; a row carries the counter
    after the step; no row means that the block had no rating element. *)
Lemma episode_step_returns (s c c' : Z) (b : episode_block)
    (r : option episode_data) :
  episode_step unicode_decimal strptime s c b = Ok (c', r) ->
  c' = (c + 1)%Z
  /\ match r with
     | Some row => cumulative_episode_number row = (c + 1)%Z /\ season row = s
     | None => rating_star b = None
     end.
Proof.
  unfold episode_step. intros H.
  do 4 next_step H.
  destruct (rating_star b) as [rating|].
  - do 5 next_step H.
    destruct (strptime _) as [d|]; cbn [bind] in H; [|discriminate H].
    next_step H. injection H as <- <-. cbn. auto.
  - injection H as <- <-. auto.
Qed.

(** The title of a row is the second piece of the title field, whatever
    the number of pieces. *)
Lemma episode_step_title (s c c' : Z) (b : episode_block)
    (row : episode_data) :
  episode_step unicode_decimal strptime s c b = Ok (c', Some row) ->
  exists t : str,
    title_div b = Some t
    /\ nth_error (split separator (strip t)) 1 = Some (title row).
Proof.
  unfold episode_step. intros H.
  destruct (title_div b) as [t|]; cbn [text_of bind] in H; [|discriminate H].
  exists t. split; [reflexivity|].
  do 2 next_step H.
  unfold index in H.
  destruct (nth_error (split separator (strip t)) 1) as [name|];
    cbn [bind] in H; [|discriminate H].
  destruct (rating_star b) as [rating|]; [|discriminate H].
  do 5 next_step H.
  destruct (strptime _) as [d|]; cbn [bind] in H; [|discriminate H].
  next_step H. injection H as _ <-. reflexivity.
Qed.

(** Whether a block yields a row, breaks the loop, or raises does not
    depend on the counter. *)
Lemma episode_step_any_counter (s c d : Z) (b : episode_block) :
  episode_step unicode_decimal strptime s d b =
    match episode_step unicode_decimal strptime s c b with
    | Ok (_, Some row) => Ok ((d + 1)%Z, Some (with_cumulative (d + 1) row))
    | Ok (_, None) => Ok ((d + 1)%Z, None)
    | Raise e => Raise e
    end.
Proof.
  unfold episode_step.
  destruct (text_of (title_div b)) as [t|]; cbn [bind]; [|reflexivity].
  destruct (index (split separator (strip t)) 0) as [first|]; cbn [bind];
    [|reflexivity].
  destruct (py_int unicode_decimal (epnum_sub first)) as [n|]; cbn [bind];
    [|reflexivity].
  destruct (index (split separator (strip t)) 1) as [tt|]; cbn [bind];
    [|reflexivity].
  destruct (rating_star b) as [rating|]; [|reflexivity].
  destruct (group1 _) as [g|]; cbn [bind]; [|reflexivity].
  destruct (rating_number _ _) as [rv|]; cbn [bind]; [|reflexivity].
  destruct (group1 _) as [v|]; cbn [bind]; [|reflexivity].
  destruct (text_to_num _ _) as [vs|]; cbn [bind]; [|reflexivity].
  destruct (text_of (air_date_span b)) as [ad|]; cbn [bind]; [|reflexivity].
  destruct (strptime _) as [a|]; cbn [bind]; [|reflexivity].
  destruct (text_of (description_div b)) as [de|]; cbn [bind]; reflexivity.
Qed.

Lemma numbers_from_S (c : Z) (n : nat) :
  numbers_from c (S n) = (c + 1)%Z :: numbers_from (c + 1) n.
Proof.
  unfold numbers_from. cbn [seq List.map]. f_equal.
  rewrite <- seq_shift, map_map. apply map_ext. intros i. lia.
Qed.

(** Blocks that all yield a row: the loop goes through them, appends one
    row for each, and numbers the rows from the counter on. *)
Lemma episodes_loop_rated (s : Z) (pre : list episode_block) :
  Forall (yields_row unicode_decimal strptime s) pre ->
  forall c : Z,
  exists new : list episode_data,
    List.length new = List.length pre
    /\ cumulative_numbers new = numbers_from c (List.length pre)
    /\ forall (rest : list episode_block) (rows : list episode_data),
        episodes_loop unicode_decimal strptime s (pre ++ rest) c rows
        = episodes_loop unicode_decimal strptime s rest
            (c + Z.of_nat (List.length pre)) (rows ++ new).
Proof.
  induction 1 as [|b pre [row Hb] _ IH]; intros c.
  - exists []. cbn [List.length app Z.of_nat]. split; [reflexivity|].
    split; [reflexivity|]. intros rest rows.
    now rewrite Z.add_0_r, app_nil_r.
  - destruct (IH (c + 1)%Z) as (new & Hlen & Hnum & Hloop).
    exists (with_cumulative (c + 1) row :: new).
    split; [cbn [List.length]; now rewrite Hlen|]. split.
    + cbn [List.length]. rewrite numbers_from_S.
      cbn [cumulative_numbers List.map with_cumulative
             cumulative_episode_number].
      f_equal. exact Hnum.
    + intros rest rows. cbn [app episodes_loop].
      rewrite (episode_step_any_counter s 0 c b), Hb. cbn [bind].
      rewrite Hloop, <- app_assoc. cbn [app]. f_equal.
      cbn [List.length]. lia.
Qed.

Lemma unrated_breaks (s c : Z) (u : episode_block) :
  rating_star u = None ->
  title_field_parses unicode_decimal u ->
  episode_step unicode_decimal strptime s c u = Ok ((c + 1)%Z, None).
Proof.
  intros Hr (t & first & n & name & Ht & Hfirst & Hn & Hname).
  unfold episode_step. rewrite Ht. cbn [text_of bind].
  rewrite Hfirst. cbn [bind]. rewrite Hn. cbn [bind].
  rewrite Hname. cbn [bind]. rewrite Hr. reflexivity.
Qed.

(** C2, as the code has it: when the blocks before a block without a
    rating element all yield a row, and that block has a title field that
    parses, the season's extraction yields exactly the rows of the blocks
    before it (N - 2 rows when it is the last but one of N blocks) and stops
    there: the result is the same whatever follows the block. *)
Theorem episodes_loop_stops_at_unrated
    (s : Z) (pre : list episode_block) (u : episode_block)
    (c : Z) (rows : list episode_data) :
  Forall (yields_row unicode_decimal strptime s) pre ->
  rating_star u = None ->
  title_field_parses unicode_decimal u ->
  exists new : list episode_data,
    List.length new = List.length pre
    /\ forall post : list episode_block,
        episodes_loop unicode_decimal strptime s (pre ++ u :: post) c rows
        = Ok ((c + Z.of_nat (List.length pre) + 1)%Z, rows ++ new).
Proof.
  intros Hpre Hr Hu.
  destruct (episodes_loop_rated s pre Hpre c) as (new & Hlen & _ & Hloop).
  exists new. split; [exact Hlen|]. intros post.
  rewrite Hloop. cbn [episodes_loop].
  rewrite (unrated_breaks s _ u Hr Hu). reflexivity.
Qed.

(** *** The cumulative numbers increase *)

Lemma StronglySorted_snoc (l : list Z) (a : Z) :
  StronglySorted Z.lt l -> Forall (fun n => (n < a)%Z) l ->
  StronglySorted Z.lt (l ++ [a]).
Proof.
  induction 1 as [|x l Hs IH Hx]; intros Ha; cbn [app].
  - repeat constructor.
  - inversion Ha as [|? ? Hxa Hla]; subst. constructor; [now apply IH|].
    apply Forall_app. split; [exact Hx|]. now constructor.
Qed.

Lemma numbered_step (c : Z) (rows : list episode_data) (row : episode_data) :
  numbered c rows ->
  cumulative_episode_number row = (c + 1)%Z ->
  numbered (c + 1) (rows ++ [row]).
Proof.
  intros [Hs Hb] Hrow. unfold numbered, cumulative_numbers in *.
  rewrite map_app. cbn [List.map]. rewrite Hrow. split.
  - apply StronglySorted_snoc; [exact Hs|].
    eapply Forall_impl; [|exact Hb]. cbv beta. intros; lia.
  - apply Forall_app. split.
    + eapply Forall_impl; [|exact Hb]. cbv beta. intros; lia.
    + constructor; [lia|constructor].
Qed.

Lemma numbered_skip (c : Z) (rows : list episode_data) :
  numbered c rows -> numbered (c + 1) rows.
Proof.
  intros [Hs Hb]. split; [exact Hs|].
  eapply Forall_impl; [|exact Hb]. cbv beta. intros; lia.
Qed.

Lemma episodes_loop_numbered (s : Z) (blocks : list episode_block) :
  forall (c c' : Z) (rows rows' : list episode_data),
    episodes_loop unicode_decimal strptime s blocks c rows = Ok (c', rows') ->
    numbered c rows -> numbered c' rows'.
Proof.
  induction blocks as [|b blocks IH]; intros c c' rows rows' H Hn;
    cbn [episodes_loop] in H.
  - injection H as <- <-. exact Hn.
  - destruct (episode_step unicode_decimal strptime s c b)
      as [[c1 [row|]]|] eqn:E; cbn [bind] in H; [| |discriminate H].
    + apply episode_step_returns in E as (-> & Hrow & _).
      apply (IH _ _ _ _ H). now apply numbered_step.
    + apply episode_step_returns in E as (-> & _).
      injection H as <- <-. now apply numbered_skip.
Qed.

End Extraction.

Section Series.

Variable unicode_decimal : char -> option N.
Variable bracketed_netloc_ok : str -> bool.
Variable nfkc : str -> str.
Variable strptime : str -> option datetime.
Variable requests_get : str -> get_outcome.
Variable BeautifulSoup : str -> document.

(** Case analysis on the next step of an action. *)
Ltac next_action H :=
  match type of H with
  | io_bind ?m _ = _ =>
      let out := fresh "out" in
      let E := fresh "E" in
      destruct m as [out [?|?]] eqn:E; cbn [io_bind] in H;
      [|discriminate H]
  end.

Lemma io_bind_ok (A B : Type) (m : io A) (k : A -> io B)
    (out : list event) (b : B) :
  io_bind m k = (out, Ok b) ->
  exists (out1 : list event) (a : A) (out2 : list event),
    m = (out1, Ok a) /\ k a = (out2, Ok b) /\ out = out1 ++ out2.
Proof.
  destruct m as [out1 [a|e]]; cbn [io_bind]; [|discriminate].
  destruct (k a) as [out2 r] eqn:E. intros H. injection H as <- ->.
  now exists out1, a, out2.
Qed.

Lemma rows_of_some (A B : Type) (r : io (list episode_data * A * B))
    (rows : list episode_data) :
  rows_of r = Some rows -> exists out x y, r = (out, Ok (rows, x, y)).
Proof.
  destruct r as [out [[[rows' x] y]|e]]; cbn [rows_of]; [|discriminate].
  intros H. injection H as ->. now exists out, x, y.
Qed.

Lemma seasons_loop_numbered (url : str) (seasons : list Z) :
  forall (c c' : Z) (rows rows' : list episode_data) (out : list event),
    seasons_loop unicode_decimal strptime requests_get BeautifulSoup
      url seasons c rows = (out, Ok (c', rows')) ->
    numbered c rows -> numbered c' rows'.
Proof.
  induction seasons as [|s seasons IH]; intros c c' rows rows' out H Hn;
    cbn [seasons_loop] in H.
  - injection H as _ <- <-. exact Hn.
  - next_action H.
    destruct (lift (soup_of BeautifulSoup a)) as [out1 [soup|]] eqn:E1;
      cbn [io_bind] in H; [|discriminate H].
    destruct (lift (episodes_loop unicode_decimal strptime s
                      (episodes soup) c rows))
      as [out2 [[c1 rows1]|]] eqn:E2; cbn [io_bind] in H; [|discriminate H].
    destruct (seasons_loop unicode_decimal strptime requests_get
                BeautifulSoup url seasons (fst (c1, rows1))
                (snd (c1, rows1))) as [out3 r] eqn:E3.
    injection H as _ ->. cbn [fst snd] in E3.
    apply (IH _ _ _ _ _ E3).
    unfold lift in E2. injection E2 as _ E2.
    exact (episodes_loop_numbered _ _ _ _ _ _ _ _ E2 Hn).
Qed.

(** The first half of the invariant holds on every run: the cumulative
    numbers of the rows that [parse_data] returns increase strictly. *)
Lemma parse_data_numbers_increase (html_data url : str)
    (rows : list episode_data) :
  rows_of (parse_data unicode_decimal strptime requests_get BeautifulSoup
             html_data url) = Some rows ->
  StronglySorted Z.lt (cumulative_numbers rows).
Proof.
  intros H. apply rows_of_some in H as (out & x & y & H).
  unfold parse_data in H.
  do 10 (apply io_bind_ok in H; destruct H as (? & ? & ? & _ & H & _)).
  apply io_bind_ok in H. destruct H as (o1 & [c' rows'] & o2 & Hloop & H & _).
  injection H as _ <- _ _. cbn [snd].
  apply seasons_loop_numbered in Hloop as [Hs _]; [exact Hs|].
  split; constructor.
Qed.

(** A page of a season that answers with an error status: [scrape_data]
    shows the error and returns [None], which the parser refuses. *)
Lemma seasons_loop_fetch_error (url : str) (s : Z) (seasons : list Z)
    (c : Z) (rows : list episode_data) (status_code : Z) (body : str) :
  requests_get (url ++ str_of_int s) = Response status_code body ->
  raises_for_status status_code = true ->
  seasons_loop unicode_decimal strptime requests_get BeautifulSoup
    url (s :: seasons) c rows
  = ([HttpErrorShown status_code], Raise TypeError).
Proof.
  intros Hget Hst. cbn [seasons_loop]. unfold scrape_data.
  rewrite Hget, Hst. reflexivity.
Qed.

(** A root page that answers with an error status: the action shows the
    error and stops before [parse_data]. *)
Lemma scrape_action_root_error (url : str) (status_code : Z) (body : str) :
  imdb_title_url unicode_decimal url ->
  requests_get url = Response status_code body ->
  raises_for_status status_code = true ->
  scrape_action unicode_decimal bracketed_netloc_ok nfkc strptime
    requests_get BeautifulSoup url
  = ([Printed url; HttpErrorShown status_code; FailedToScrapeShown],
     Ok None).
Proof.
  intros Hurl Hget Hst. unfold scrape_action.
  apply (is_valid_imdb_url_true unicode_decimal bracketed_netloc_ok nfkc)
    in Hurl.
  rewrite Hurl. unfold scrape_data. rewrite Hget, Hst. reflexivity.
Qed.

End Series.

(** ** Season discovery *)

Lemma in_range_list (a b s : Z) : In s (range a b) <-> (a <= s < b)%Z.
Proof.
  unfold range. rewrite in_map_iff. split.
  - intros (i & <- & Hi). apply in_seq in Hi. lia.
  - intros H. exists (Z.to_nat (s - a)). split; [lia|].
    apply in_seq. lia.
Qed.

Section Discovery.

Variable unicode_decimal : char -> option N.

Lemma py_int_raises (s : str) (e : exn) :
  py_int unicode_decimal s = Raise e -> e = ValueError.
Proof.
  unfold py_int.
  destruct (take_sign _) as [neg t].
  destruct t as [|c t]; [congruence|].
  destruct (char_eqb c (ch "_")); [congruence|].
  destruct (scan_int _ _ _ _) as [[[v n] rest]|]; [|congruence].
  destruct n as [|n]; [congruence|].
  destruct (lstrip_with _ _); [|congruence].
  destruct (Nat.ltb _ _); congruence.
Qed.

Lemma tabs_loop_returns (tabs : list str) :
  forall seasons : list Z,
  exists (out : list event) (seasons' : list Z),
    tabs_loop unicode_decimal tabs seasons = (out, Ok seasons').
Proof.
  induction tabs as [|tab tabs IH]; intros seasons; cbn [tabs_loop].
  - now exists [], seasons.
  - destruct (py_int unicode_decimal (strip tab)) as [n|e] eqn:E.
    + apply IH.
    + apply py_int_raises in E. subst e.
      destruct (IH seasons) as (out & seasons' & ->).
      cbn [emit io_bind]. eauto.
Qed.

(** C4, as the code has it: the season count is the integer that the label
    of the last tab denotes, whatever the labels before it are (those that
    are no integers are printed and skipped), and the seasons visited are
    the contiguous range from 1 to that count; the tabs 1, 2, Extra, 4 give
    the seasons 1, 2, 3, 4. *)
Theorem discover_seasons_by_last_tab :
  (forall (tabs : list str) (last_tab : str) (n : Z),
      py_int unicode_decimal (strip last_tab) = Ok n ->
      exists out : list event,
        discover_seasons unicode_decimal (tabs ++ [last_tab])
        = (out, Ok (range 1 (n + 1))))
  /\ (forall n s : Z, In s (range 1 (n + 1)) <-> (1 <= s <= n)%Z)
  /\ discover_seasons unicode_decimal
       [lit "1"; lit "2"; lit "Extra"; lit "4"]
     = ([Printed (lit "Skipping non-integer season tab: Extra")],
        Ok [1; 2; 3; 4]%Z).
Proof.
  split; [|split].
  - intros tabs last_tab n Hn. unfold discover_seasons.
    destruct (tabs_loop_returns (tabs ++ [last_tab]) [])
      as (out & seasons & ->).
    exists (out ++ []). cbn [io_bind].
    rewrite last_item_app. cbn [lift io_bind]. rewrite Hn.
    reflexivity.
  - intros n s. rewrite in_range_list. lia.
  - vm_compute. reflexivity.
Qed.

End Discovery.

Lemma discover_seasons_by_last_tab_witness :
  exists out : list event,
    discover_seasons ascii_only ([lit "1"; lit "2"; lit "Extra"] ++ [lit "4"])
    = (out, Ok (range 1 (4 + 1))).
Proof.
  apply (proj1 (discover_seasons_by_last_tab ascii_only)
           [lit "1"; lit "2"; lit "Extra"] (lit "4") 4%Z).
  vm_compute. reflexivity.
Defined.

(** C4, as the claim states it, fails: with the tabs 2, 1 the highest
    integer label is 2, and only season 1 is visited. *)
Lemma discover_seasons_not_highest :
  discover_seasons ascii_only [lit "2"; lit "1"] = ([], Ok [1%Z])
  /\ py_int ascii_only (strip (lit "2")) = Ok 2%Z
  /\ ~ In 2%Z [1%Z].
Proof.
  split; [vm_compute; reflexivity|]. split; [vm_compute; reflexivity|].
  intros [H|[]]. discriminate H.
Qed.

(** ** Runs of the program on the sample pages *)

Lemma episodes_loop_stops_at_unrated_witness :
  exists new : list episode_data,
    List.length new = List.length (rated_blocks 1 1)
    /\ forall post : list episode_block,
        episodes_loop ascii_only sample_strptime 1
          (rated_blocks 1 1
             ++ unrated_block (title_field 1 2 (lit "Pending")) :: post)
          0 []
        = Ok ((0 + Z.of_nat (List.length (rated_blocks 1 1)) + 1)%Z,
              [] ++ new).
Proof.
  apply episodes_loop_stops_at_unrated.
  - repeat constructor. eexists. vm_compute. reflexivity.
  - reflexivity.
  - eexists _, _, _, _. repeat split; vm_compute; reflexivity.
Defined.

(** C2, as the claim states it, fails: of three blocks of which the second
    has no rating element, the extraction yields one row, not two. *)
Lemma unrated_second_of_three :
  match
    episodes_loop ascii_only sample_strptime 1
      [rated_block (title_field 1 1 (lit "Title"));
       unrated_block (title_field 1 2 (lit "Pending"));
       rated_block (title_field 1 3 (lit "Title"))] 0 []
  with
  | Ok (_, rows) =>
      List.length rows = 1%nat /\ List.length rows <> (3 - 1)%nat
  | Raise _ => False
  end.
Proof. vm_compute. split; [reflexivity|discriminate]. Qed.

(** C1: with 8 and 10 blocks that all have a rating, the cumulative numbers
    run from 1 to 18. With a ninth block without a rating in season 1 the
    same 18 rows are extracted, and the numbers of season 2 run from 10 to
    19: the ninth row has the number 10, while 8 rows were extracted before
    it. *)
Theorem cumulative_numbers_skip_after_break :
  option_map cumulative_numbers
    (rows_of (parse_data ascii_only sample_strptime network_up
                (two_season_parser (rated_blocks 1 8) (rated_blocks 2 10))
                (lit "root") sample_url))
  = Some [1; 2; 3; 4; 5; 6; 7; 8; 9; 10; 11; 12; 13; 14; 15; 16; 17; 18]%Z
  /\ option_map cumulative_numbers
    (rows_of (parse_data ascii_only sample_strptime network_up
                (two_season_parser
                   (rated_blocks 1 8
                      ++ [unrated_block (title_field 1 9 (lit "Pending"))])
                   (rated_blocks 2 10))
                (lit "root") sample_url))
  = Some [1; 2; 3; 4; 5; 6; 7; 8; 10; 11; 12; 13; 14; 15; 16; 17; 18; 19]%Z.
Proof. split; vm_compute; reflexivity. Qed.

(** C3: when the root page answers 404 the action shows the HTTP error and
    stops without a dataset. When the page of season 1 answers 404, the
    action shows the HTTP error and is then aborted by a [TypeError]: it
    does not go on to season 2, whose page is served and has rated
    episodes. *)
Theorem scrape_action_on_404
    (unicode_decimal : char -> option N) (bracketed_netloc_ok : str -> bool)
    (nfkc : str -> str) (strptime : str -> option datetime) :
  scrape_action unicode_decimal bracketed_netloc_ok nfkc strptime
    network_root_404 (two_season_parser [] (rated_blocks 2 10)) sample_url
  = ([Printed sample_url; HttpErrorShown 404; FailedToScrapeShown], Ok None)
  /\ scrape_action unicode_decimal bracketed_netloc_ok nfkc strptime
    network_season1_404 (two_season_parser [] (rated_blocks 2 10)) sample_url
  = ([Printed sample_url; HttpErrorShown 404], Raise TypeError).
Proof. split; vm_compute; reflexivity. Qed.

(** C9: a title field whose title contains the separator. The number
    before the first separator becomes the episode number, and the title is
    the text between the first and the second separator only: what follows
    the second separator is lost. *)
Theorem title_is_cut_at_second_separator :
  exists row : episode_data,
    episode_step ascii_only sample_strptime 1 0
      (rated_block (lit "S1.E7" ++ separator ++ lit "Part"
                      ++ separator ++ lit "Two"))
    = Ok (1%Z, Some row)
    /\ episode_number row = 7%Z
    /\ title row = lit "Part"
    /\ title row <> lit "Part" ++ separator ++ lit "Two".
Proof.
  eexists. split; [vm_compute; reflexivity|].
  cbn [episode_number title]. repeat split. discriminate.
Qed.

(** * Part III: further properties of the code *)

(** ** [text_to_num]: kinds of result and of error *)

Lemma list_last_cases (A : Type) (l : list A) :
  l = [] \/ exists (body : list A) (c : A), l = body ++ [c].
Proof. induction l using rev_ind; [now left|right; eauto]. Qed.

Lemma dict_get_dic_some (c : char) (mag : Z) :
  dict_get [c] dic = Some mag ->
  (c = ch "K" /\ mag = 1000%Z) \/ (c = ch "M" /\ mag = 1000000%Z).
Proof.
  rewrite dict_get_dic.
  destruct (char_eqb c (ch "K")) eqn:EK.
  - apply char_eqb_eq in EK. intros H. injection H as <-. now left.
  - destruct (char_eqb c (ch "M")) eqn:EM; [|discriminate].
    apply char_eqb_eq in EM. intros H. injection H as <-. now right.
Qed.

Lemma dict_get_dic_none (c : char) :
  dict_get [c] dic = None -> c <> ch "K" /\ c <> ch "M".
Proof.
  rewrite dict_get_dic.
  destruct (char_eqb c (ch "K")) eqn:EK; [discriminate|].
  destruct (char_eqb c (ch "M")) eqn:EM; [discriminate|].
  intros _. split; now apply N.eqb_neq.
Qed.

(** The magnitudes of [dic] are floats: the multiplication never raises. *)
Lemma float_mul_int_dic (c : char) (mag : Z) (x : spec_float) :
  dict_get [c] dic = Some mag ->
  exists p, float_mul_int x mag = Ok p.
Proof.
  intros H. apply dict_get_dic_some in H as [[_ ->]|[_ ->]];
    eexists; reflexivity.
Qed.

Lemma int_of_float_raises (p : spec_float) (e : exn) :
  int_of_float p = Raise e ->
  (e = ValueError /\ is_nan p = true)
  \/ (e = OverflowError /\ is_infinite p = true).
Proof.
  destruct p; cbn [int_of_float]; intros H; try discriminate H;
    injection H as <-; auto.
Qed.

Section TextToNumKinds.

Variable unicode_decimal : char -> option N.

Lemma py_float_raises (s : str) (e : exn) :
  py_float unicode_decimal s = Raise e -> e = ValueError.
Proof.
  assert (Hinner : forall t, float_from_string_inner t = Raise e ->
                             e = ValueError).
  { intros t. unfold float_from_string_inner.
    destruct (rstrip_with _ _) as [|y body]; [congruence|].
    destruct (match strtod (y :: body) with
              | Some r => Some r
              | None => parse_inf_or_nan (y :: body)
              end) as [[x [|? ?]]|]; congruence. }
  unfold py_float. destruct (mem_char _ _); [|apply Hinner].
  destruct (drop_underscores _ _); [apply Hinner|congruence].
Qed.

(** X1: [text_to_num] returns an [int] exactly for the texts that end in
    [K] or [M], and a [float] for every other text it accepts: the kind of
    the result is decided by the last character alone. *)
Theorem text_to_num_result_kind (text : str) (v : pynum) :
  text_to_num unicode_decimal text = Ok v ->
  exists (body : str) (c : char),
    text = body ++ [c]
    /\ match v with
       | PyInt _ => c = ch "K" \/ c = ch "M"
       | PyFloat _ => c <> ch "K" /\ c <> ch "M"
       end.
Proof.
  destruct (list_last_cases _ text) as [->|(body & c & ->)];
    [discriminate|].
  rewrite text_to_num_last. intros H. exists body, c.
  split; [reflexivity|].
  destruct (dict_get [c] dic) as [mag|] eqn:Ed.
  - apply dict_get_dic_some in Ed.
    destruct (py_float unicode_decimal body); cbn [bind] in H;
      [|discriminate H].
    destruct (float_mul_int _ _); cbn [bind] in H; [|discriminate H].
    destruct (int_of_float _); cbn [bind] in H; [|discriminate H].
    injection H as <-. tauto.
  - apply dict_get_dic_none in Ed.
    destruct (py_float unicode_decimal (body ++ [c])); cbn [bind] in H;
      [|discriminate H].
    injection H as <-. exact Ed.
Qed.

(** X2: the exceptions of [text_to_num]. It raises [IndexError] exactly on
    the empty text. On any other text it raises [ValueError] or
    [OverflowError] only, and [OverflowError] only for a text with a suffix
    whose product with the magnitude is infinite; a text without a suffix
    never raises [OverflowError]. *)
Theorem text_to_num_exceptions (text : str) (e : exn) :
  text_to_num unicode_decimal text = Raise e ->
  (e = IndexError /\ text = [])
  \/ (e = ValueError /\ text <> [])
  \/ (e = OverflowError
      /\ exists (body : str) (c : char) (mag : Z) (x p : spec_float),
          text = body ++ [c]
          /\ dict_get [c] dic = Some mag
          /\ py_float unicode_decimal body = Ok x
          /\ float_mul_int x mag = Ok p
          /\ is_infinite p = true).
Proof.
  destruct (list_last_cases _ text) as [->|(body & c & ->)].
  - intros H. injection H as <-. now left.
  - assert (Hne : body ++ [c] <> []) by (now destruct body).
    rewrite text_to_num_last. intros H. right.
    destruct (dict_get [c] dic) as [mag|] eqn:Ed.
    + destruct (py_float unicode_decimal body) as [x|e'] eqn:Ex;
        cbn [bind] in H.
      * destruct (float_mul_int_dic c mag x Ed) as (p & Ep).
        rewrite Ep in H. cbn [bind] in H.
        destruct (int_of_float p) as [z|e'] eqn:Ez; cbn [bind] in H;
          [discriminate H|].
        injection H as <-.
        apply int_of_float_raises in Ez as [[-> _]|[-> Hinf]];
          [now left|].
        right. split; [reflexivity|]. now exists body, c, mag, x, p.
      * injection H as <-. apply py_float_raises in Ex. subst e'. now left.
    + destruct (py_float unicode_decimal (body ++ [c])) as [x|e'] eqn:Ex;
        cbn [bind] in H; [discriminate H|].
      injection H as <-. apply py_float_raises in Ex. subst e'. now left.
Qed.

End TextToNumKinds.

Lemma text_to_num_result_kind_witness :
  exists (body : str) (c : char),
    lit "1.2K" = body ++ [c] /\ (c = ch "K" \/ c = ch "M").
Proof.
  apply (text_to_num_result_kind ascii_only (lit "1.2K") (PyInt 1200)).
  vm_compute. reflexivity.
Defined.

Lemma text_to_num_exceptions_witness :
  (OverflowError = IndexError /\ lit "infK" = [])
  \/ (OverflowError = ValueError /\ lit "infK" <> [])
  \/ (OverflowError = OverflowError
      /\ exists (body : str) (c : char) (mag : Z) (x p : spec_float),
          lit "infK" = body ++ [c]
          /\ dict_get [c] dic = Some mag
          /\ py_float ascii_only body = Ok x
          /\ float_mul_int x mag = Ok p
          /\ is_infinite p = true).
Proof.
  apply (text_to_num_exceptions ascii_only (lit "infK") OverflowError).
  vm_compute. reflexivity.
Defined.

(** ** [scrape_data]: the contract *)

Section Fetch.

Variable requests_get : str -> get_outcome.

(** X3: [scrape_data] never raises. It returns the text of the response
    exactly when the request succeeds with a status outside 400..599, and
    then shows nothing; in every other case it returns [None] and shows
    exactly one message, which names the kind of failure. *)
Theorem scrape_data_contract (url : str) :
  exists (out : list event) (r : option str),
    scrape_data requests_get url = (out, Ok r)
    /\ (forall text : str,
          r = Some text <->
          exists status_code : Z,
            requests_get url = Response status_code text
            /\ raises_for_status status_code = false)
    /\ match r with
       | Some _ => out = []
       | None =>
           exists e : event, out = [e] /\ fetch_error_event e = true
       end.
Proof.
  unfold scrape_data.
  destruct (requests_get url) as [status_code text| |] eqn:E.
  - destruct (raises_for_status status_code) eqn:Hs.
    + exists [HttpErrorShown status_code], None. cbn.
      split; [reflexivity|]. split; [|eauto].
      intros t. split; [discriminate|].
      intros (code & H & Hc). injection H as -> ->. congruence.
    + exists [], (Some text). split; [reflexivity|]. split; [|reflexivity].
      intros t. split.
      * intros H. injection H as <-. eauto.
      * intros (code & H & _). now injection H as _ ->.
  - exists [RequestErrorShown], None. cbn. split; [reflexivity|].
    split; [|eauto]. intros t. split; [discriminate|].
    intros (code & H & _). discriminate H.
  - exists [UnexpectedErrorShown], None. cbn. split; [reflexivity|].
    split; [|eauto]. intros t. split; [discriminate|].
    intros (code & H & _). discriminate H.
Qed.

End Fetch.

(** ** The scrape action and [parse_data]: what the user gets to see *)

Lemma scrape_data_cases (requests_get : str -> get_outcome) (url : str) :
  (exists text : str, scrape_data requests_get url = ([], Ok (Some text)))
  \/ (exists e : event,
        fetch_error_event e = true
        /\ scrape_data requests_get url = ([e], Ok None)).
Proof.
  unfold scrape_data.
  destruct (requests_get url) as [status_code text| |].
  - destruct (raises_for_status status_code).
    + right. exists (HttpErrorShown status_code). split; reflexivity.
    + left. exists text. reflexivity.
  - right. exists RequestErrorShown. split; reflexivity.
  - right. exists UnexpectedErrorShown. split; reflexivity.
Qed.

Lemma lift_ok (A : Type) (r : result A) (out : list event) (a : A) :
  lift r = (out, Ok a) -> r = Ok a /\ out = [].
Proof. unfold lift. intros H. now injection H as <- ->. Qed.

Section Discovery2.

Variable unicode_decimal : char -> option N.

(** The loop over the tabs, in closed form. *)
Lemma tabs_loop_closed_form (tabs : list str) :
  forall seasons : list Z,
    tabs_loop unicode_decimal tabs seasons
    = (List.map skip_line
         (filter (fun tab => negb (integer_label unicode_decimal tab)) tabs),
       Ok (seasons ++ integer_labels unicode_decimal tabs)).
Proof.
  induction tabs as [|tab tabs IH]; intros seasons;
    cbn [tabs_loop filter integer_labels List.map].
  - now rewrite app_nil_r.
  - unfold integer_label at 1.
    destruct (py_int unicode_decimal (strip tab)) as [n|e] eqn:E;
      cbn [negb].
    + rewrite IH, <- app_assoc. reflexivity.
    + apply py_int_raises in E. subst e. rewrite IH.
      cbn [emit io_bind List.map app]. reflexivity.
Qed.

(** X4: season discovery in closed form. The result depends on the last
    label alone: [IndexError] when there is no tab, [ValueError] when the
    last label is no integer, and the range from 1 to the last label
    otherwise (empty when that is below 1). What is printed is one line for
    each label that is no integer, in the order of the tabs. The list that
    the loop collects has no effect. *)
Theorem discover_seasons_closed_form (tabs : list str) :
  discover_seasons unicode_decimal tabs
  = (List.map skip_line
       (filter (fun tab => negb (integer_label unicode_decimal tab)) tabs),
     match last_item tabs with
     | Ok last_tab =>
         match py_int unicode_decimal (strip last_tab) with
         | Ok n => Ok (range 1 (n + 1))
         | Raise _ => Raise ValueError
         end
     | Raise _ => Raise IndexError
     end).
Proof.
  unfold discover_seasons. rewrite tabs_loop_closed_form. cbn [io_bind].
  destruct (list_last_cases _ tabs) as [->|(init & last_tab & ->)].
  - reflexivity.
  - rewrite last_item_app. cbn [lift io_bind].
    destruct (py_int unicode_decimal (strip last_tab)) as [n|e] eqn:E.
    + cbn [ret]. now rewrite !app_nil_r.
    + apply py_int_raises in E. subst e. now rewrite app_nil_r.
Qed.

Lemma discover_seasons_events (tabs : list str) (out : list event)
    (r : result (list Z)) :
  discover_seasons unicode_decimal tabs = (out, r) ->
  forallb printed_event out = true.
Proof.
  unfold discover_seasons. rewrite tabs_loop_closed_form. cbn [io_bind].
  set (lines := List.map skip_line _).
  assert (Hl : forallb printed_event lines = true).
  { unfold lines. induction (filter _ tabs) as [|t l IH]; [reflexivity|].
    cbn [List.map forallb]. rewrite IH. reflexivity. }
  destruct (lift (last_item tabs)) as [o1 [last_tab|e]] eqn:E1;
    unfold lift in E1; injection E1 as <- E1; cbn [io_bind].
  - destruct (py_int unicode_decimal (strip last_tab)) as [n|e];
      cbn [lift io_bind ret]; intros H; injection H as <- _;
      cbn [app]; rewrite ?app_nil_r; exact Hl.
  - intros H. injection H as <- _. rewrite ?app_nil_r. exact Hl.
Qed.

Lemma discover_seasons_ok_range (tabs : list str) (out : list event)
    (seasons : list Z) :
  discover_seasons unicode_decimal tabs = (out, Ok seasons) ->
  exists n : Z, seasons = range 1 (n + 1).
Proof.
  unfold discover_seasons. rewrite tabs_loop_closed_form. cbn [io_bind].
  destruct (lift (last_item tabs)) as [o1 [last_tab|e]] eqn:E1;
    unfold lift in E1; injection E1 as <- E1; cbn [io_bind];
    [|discriminate].
  destruct (py_int unicode_decimal (strip last_tab)) as [n|e];
    cbn [lift io_bind ret]; [|discriminate].
  intros H. injection H as _ <-. now exists n.
Qed.

End Discovery2.

Section Series2.

Variable unicode_decimal : char -> option N.
Variable bracketed_netloc_ok : str -> bool.
Variable nfkc : str -> str.
Variable strptime : str -> option datetime.
Variable requests_get : str -> get_outcome.
Variable BeautifulSoup : str -> document.

(** A fetch that is followed by the parser goes on only with a page. *)
Lemma fetch_then_parse (url : str) (out : list event) (soup : document)
    (html : option str) (out1 out2 : list event) :
  scrape_data requests_get url = (out1, Ok html) ->
  lift (soup_of BeautifulSoup html) = (out2, Ok soup) ->
  exists text : str,
    html = Some text /\ out1 = [] /\ out2 = []
    /\ soup = BeautifulSoup text.
Proof.
  intros Hs Hp. apply lift_ok in Hp as [Hp ->].
  destruct (scrape_data_cases requests_get url)
    as [(text & E)|(e & _ & E)]; rewrite E in Hs; injection Hs as <- <-.
  - exists text. cbn [soup_of] in Hp. injection Hp as <-. auto.
  - discriminate Hp.
Qed.

(** One round of the loop over the seasons that goes on. *)
Lemma seasons_loop_cons_ok (url : str) (s : Z) (seasons : list Z)
    (c : Z) (rows : list episode_data) (out : list event)
    (st : Z * list episode_data) :
  seasons_loop unicode_decimal strptime requests_get BeautifulSoup
    url (s :: seasons) c rows = (out, Ok st) ->
  exists (text : str) (c1 : Z) (rows1 : list episode_data),
    scrape_data requests_get (url ++ str_of_int s) = ([], Ok (Some text))
    /\ episodes_loop unicode_decimal strptime s
         (episodes (BeautifulSoup text)) c rows = Ok (c1, rows1)
    /\ seasons_loop unicode_decimal strptime requests_get BeautifulSoup
         url seasons c1 rows1 = (out, Ok st).
Proof.
  cbn [seasons_loop]. intros H.
  apply io_bind_ok in H as (o1 & html & o2 & E1 & H & ->).
  apply io_bind_ok in H as (o3 & soup & o4 & E2 & H & ->).
  destruct (fetch_then_parse _ o1 _ _ _ _ E1 E2)
    as (text & -> & -> & -> & ->).
  apply io_bind_ok in H as (o5 & [c1 rows1] & o6 & E3 & H & ->).
  apply lift_ok in E3 as [E3 ->]. cbn [fst snd app] in *.
  exists text, c1, rows1. auto.
Qed.

Lemma seasons_loop_ok_silent (url : str) (seasons : list Z) :
  forall (c : Z) (rows : list episode_data) (out : list event)
         (st : Z * list episode_data),
    seasons_loop unicode_decimal strptime requests_get BeautifulSoup
      url seasons c rows = (out, Ok st) ->
    out = [].
Proof.
  induction seasons as [|s seasons IH]; intros c rows out st H.
  - cbn [seasons_loop ret] in H. now injection H as <- _.
  - apply seasons_loop_cons_ok in H as (text & c1 & rows1 & _ & _ & H).
    exact (IH _ _ _ _ H).
Qed.

(** What a run of [parse_data] that returns went through. *)
Lemma parse_data_inv (html_data url : str) (out : list event)
    (rows : list episode_data) (sd : series_data) (poster_url : str) :
  parse_data unicode_decimal strptime requests_get BeautifulSoup
    html_data url = (out, Ok (rows, sd, poster_url)) ->
  exists (index_html : str) (seasons : list Z) (c : Z),
    scrape_data requests_get (url ++ episodes_suffix)
    = ([], Ok (Some index_html))
    /\ discover_seasons unicode_decimal
         (seasontabs (BeautifulSoup index_html)) = (out, Ok seasons)
    /\ seasons_loop unicode_decimal strptime requests_get BeautifulSoup
         (url ++ episodes_suffix) seasons 0 [] = ([], Ok (c, rows)).
Proof.
  unfold parse_data. intros H.
  apply io_bind_ok in H as (o1 & soup & o1' & E1 & H & ->).
  apply lift_ok in E1 as [_ ->].
  apply io_bind_ok in H as (o2 & sr & o2' & E2 & H & ->).
  apply lift_ok in E2 as [_ ->].
  apply io_bind_ok in H as (o3 & rating & o3' & E3 & H & ->).
  apply lift_ok in E3 as [_ ->].
  apply io_bind_ok in H as (o4 & sv & o4' & E4 & H & ->).
  apply lift_ok in E4 as [_ ->].
  apply io_bind_ok in H as (o5 & vs & o5' & E5 & H & ->).
  apply lift_ok in E5 as [_ ->].
  apply io_bind_ok in H as (o6 & index & o6' & E6 & H & ->).
  apply io_bind_ok in H as (o7 & soup2 & o7' & E7 & H & ->).
  destruct (fetch_then_parse _ o6 _ _ _ _ E6 E7)
    as (index_html & -> & -> & -> & ->).
  apply io_bind_ok in H as (o8 & seasons & o8' & E8 & H & ->).
  apply io_bind_ok in H as (o9 & sn & o9' & E9 & H & ->).
  apply lift_ok in E9 as [_ ->].
  apply io_bind_ok in H as (o10 & poster & o10' & E10 & H & ->).
  apply lift_ok in E10 as [_ ->].
  apply io_bind_ok in H as (o11 & [c rows'] & o11' & E11 & H & ->).
  unfold ret in H. injection H as <- <- _ _. cbn [snd].
  pose proof (seasons_loop_ok_silent _ _ _ _ _ _ E11) as ->.
  exists index_html, seasons, c. cbn [app]. rewrite !app_nil_r.
  auto.
Qed.

(** X5: a run of [parse_data] that returns a dataset has fetched every one
    of its pages: nothing is shown but the lines printed for skipped tabs,
    no error message. A dataset with a silent gap for a page that could not
    be fetched is never returned. *)
Theorem parse_data_returns_without_error (html_data url : str)
    (out : list event)
    (data : list episode_data * series_data * str) :
  parse_data unicode_decimal strptime requests_get BeautifulSoup
    html_data url = (out, Ok data) ->
  forallb printed_event out = true
  /\ forallb (fun e => negb (fetch_error_event e)) out = true.
Proof.
  destruct data as [[rows sd] poster_url]. intros H.
  apply parse_data_inv in H as (index_html & seasons & c & _ & Hd & _).
  apply discover_seasons_events in Hd.
  split; [exact Hd|].
  rewrite forallb_forall in *. intros e He. specialize (Hd e He).
  now destruct e.
Qed.

(** X6: when the episodes-index page cannot be fetched, whatever the
    reason, [parse_data] shows the one error message of the fetch and is
    then aborted by a [TypeError], although the root page was read: the
    [None] that [scrape_data] returns goes to the parser unchecked. *)
Theorem parse_data_index_fetch_fails (html_data url : str)
    (sr sv : str) (rating votes : pynum) :
  series_rating_span (BeautifulSoup html_data) = Some sr ->
  rating_number unicode_decimal (strip sr) = Ok rating ->
  series_votes_div (BeautifulSoup html_data) = Some sv ->
  text_to_num unicode_decimal (strip sv) = Ok votes ->
  snd (scrape_data requests_get (url ++ episodes_suffix)) = Ok None ->
  exists e : event,
    fetch_error_event e = true
    /\ parse_data unicode_decimal strptime requests_get BeautifulSoup
         html_data url = ([e], Raise TypeError).
Proof.
  intros Hsr Hr Hsv Hv Hfetch.
  destruct (scrape_data_cases requests_get (url ++ episodes_suffix))
    as [(text & E)|(e & He & E)]; rewrite E in Hfetch;
    [discriminate Hfetch|].
  exists e. split; [exact He|]. unfold parse_data.
  cbn [soup_of lift io_bind]. rewrite Hsr. cbn [text_of io_bind].
  rewrite Hr. cbn [io_bind]. rewrite Hsv. cbn [text_of io_bind].
  rewrite Hv. cbn [io_bind]. rewrite E. reflexivity.
Qed.


Lemma episodes_loop_appends (s : Z) (blocks : list episode_block) :
  forall (c c' : Z) (rows rows' : list episode_data),
    episodes_loop unicode_decimal strptime s blocks c rows = Ok (c', rows') ->
    exists new : list episode_data,
      rows' = rows ++ new /\ Forall (fun row => season row = s) new.
Proof.
  induction blocks as [|b blocks IH]; intros c c' rows rows' H;
    cbn [episodes_loop] in H.
  - injection H as <- <-. exists []. split; [now rewrite app_nil_r|].
    constructor.
  - destruct (episode_step unicode_decimal strptime s c b)
      as [[c1 [row|]]|] eqn:E; cbn [bind] in H; [| |discriminate H].
    + apply episode_step_returns in E as (_ & _ & Hs).
      apply IH in H as (new & -> & Hnew).
      exists (row :: new). rewrite <- app_assoc. split; [reflexivity|].
      now constructor.
    + injection H as <- <-. exists []. split; [now rewrite app_nil_r|].
      constructor.
Qed.

Lemma seasons_loop_groups (url : str) (seasons : list Z) :
  forall (c c' : Z) (rows rows' : list episode_data) (out : list event),
    seasons_loop unicode_decimal strptime requests_get BeautifulSoup
      url seasons c rows = (out, Ok (c', rows')) ->
    exists groups : list (list episode_data),
      rows' = rows ++ List.concat groups /\ by_season seasons groups.
Proof.
  induction seasons as [|s seasons IH]; intros c c' rows rows' out H.
  - cbn [seasons_loop ret] in H. injection H as _ _ <-.
    exists []. split; [now rewrite app_nil_r|]. constructor.
  - apply seasons_loop_cons_ok in H as (text & c1 & rows1 & _ & He & H).
    apply episodes_loop_appends in He as (new & -> & Hnew).
    apply IH in H as (groups & -> & Hg).
    exists (new :: groups). cbn [List.concat]. rewrite app_assoc.
    split; [reflexivity|]. now constructor.
Qed.

(** X8: the rows [parse_data] returns come season by season, for the
    seasons 1, 2, ..., n in this order: the rows of one season are next to
    each other and carry the number of the season whose page they were
    read from, whatever the title field of the episode says. *)
Theorem parse_data_rows_by_season (html_data url : str)
    (rows : list episode_data) :
  rows_of (parse_data unicode_decimal strptime requests_get BeautifulSoup
             html_data url) = Some rows ->
  exists (n : Z) (groups : list (list episode_data)),
    rows = List.concat groups /\ by_season (range 1 (n + 1)) groups.
Proof.
  intros H. apply rows_of_some in H as (out & sd & poster_url & H).
  apply parse_data_inv in H as (index_html & seasons & c & _ & Hd & Hl).
  apply discover_seasons_ok_range in Hd as [n ->].
  apply seasons_loop_groups in Hl as (groups & Hrows & Hg).
  now exists n, groups.
Qed.

Lemma position_bounds_snoc (rows : list episode_data) (row : episode_data) :
  position_bounds rows ->
  (Z.of_nat (List.length rows) + 1 <= cumulative_episode_number row
   <= Z.of_nat (List.length rows) + season row)%Z ->
  position_bounds (rows ++ [row]).
Proof.
  intros Hp Hr i r Hi.
  destruct (Nat.lt_ge_cases i (List.length rows)) as [Hlt|Hge].
  - rewrite nth_error_app1 in Hi by exact Hlt. exact (Hp i r Hi).
  - rewrite nth_error_app2 in Hi by exact Hge.
    destruct (i - List.length rows)%nat as [|k] eqn:Ek.
    + cbn [nth_error] in Hi. injection Hi as <-.
      replace i with (List.length rows) by lia. exact Hr.
    + destruct k; discriminate Hi.
Qed.

Lemma episodes_loop_budget (s : Z) (blocks : list episode_block) :
  forall (c c' : Z) (rows rows' : list episode_data),
    episodes_loop unicode_decimal strptime s blocks c rows = Ok (c', rows') ->
    budget s c rows -> budget (s + 1) c' rows'.
Proof.
  induction blocks as [|b blocks IH]; intros c c' rows rows' H [Hp Hc];
    cbn [episodes_loop] in H.
  - injection H as <- <-. split; [exact Hp|lia].
  - destruct (episode_step unicode_decimal strptime s c b)
      as [[c1 [row|]]|] eqn:E; cbn [bind] in H; [| |discriminate H].
    + apply episode_step_returns in E as (-> & Hcum & Hs).
      apply (IH _ _ _ _ H). split.
      * apply position_bounds_snoc; [exact Hp|]. rewrite Hcum, Hs. lia.
      * rewrite length_app. cbn [List.length]. lia.
    + apply episode_step_returns in E as (-> & _).
      injection H as <- <-. split; [exact Hp|lia].
Qed.

Lemma range_cons (s : Z) (k : nat) :
  range s (s + Z.of_nat (S k))
  = s :: range (s + 1) (s + 1 + Z.of_nat k).
Proof.
  unfold range.
  replace (Z.to_nat (s + Z.of_nat (S k) - s)) with (S k) by lia.
  replace (Z.to_nat (s + 1 + Z.of_nat k - (s + 1))) with k by lia.
  cbn [seq List.map]. f_equal; [cbn [Z.of_nat]; lia|].
  rewrite <- seq_shift, map_map. apply map_ext. intros i. lia.
Qed.

Lemma seasons_loop_budget (url : str) (k : nat) :
  forall (s c c' : Z) (rows rows' : list episode_data) (out : list event),
    seasons_loop unicode_decimal strptime requests_get BeautifulSoup
      url (range s (s + Z.of_nat k)) c rows = (out, Ok (c', rows')) ->
    budget s c rows -> position_bounds rows'.
Proof.
  induction k as [|k IH]; intros s c c' rows rows' out H Hb.
  - unfold range in H. replace (Z.to_nat (s + Z.of_nat 0 - s)) with 0%nat in H
      by lia.
    cbn [seq List.map seasons_loop ret] in H. injection H as _ _ <-.
    exact (proj1 Hb).
  - rewrite range_cons in H.
    apply seasons_loop_cons_ok in H as (text & c1 & rows1 & _ & He & H).
    apply (IH _ _ _ _ _ _ H).
    exact (episodes_loop_budget _ _ _ _ _ _ He Hb).
Qed.

(** X9: in the rows [parse_data] returns the cumulative numbers increase
    strictly, and the cumulative number of the row at position [i] (from 0)
    is at least [i + 1] and at most [i] plus the season of the row. So the
    numbers of the first season are the positions, and a later number is
    ahead of the position by less than the season of its row. *)
Theorem parse_data_numbers_near_positions (html_data url : str)
    (rows : list episode_data) :
  rows_of (parse_data unicode_decimal strptime requests_get BeautifulSoup
             html_data url) = Some rows ->
  StronglySorted Z.lt (cumulative_numbers rows)
  /\ forall (i : nat) (row : episode_data),
      nth_error rows i = Some row ->
      (Z.of_nat i + 1 <= cumulative_episode_number row
       <= Z.of_nat i + season row)%Z.
Proof.
  intros H. split.
  - exact (parse_data_numbers_increase unicode_decimal strptime requests_get
             BeautifulSoup html_data url rows H).
  - apply rows_of_some in H as (out & sd & poster_url & H).
    apply parse_data_inv in H as (index_html & seasons & c & _ & Hd & Hl).
    apply discover_seasons_ok_range in Hd as [n ->].
    assert (Hr : range 1 (n + 1) = range 1 (1 + Z.of_nat (Z.to_nat n)))
      by (unfold range; do 2 f_equal; lia).
    rewrite Hr in Hl.
    apply (seasons_loop_budget _ _ _ _ _ _ _ _ Hl).
    split; [|cbn [List.length Z.of_nat]; lia].
    intros i row Hi. destruct i; discriminate Hi.
Qed.

Lemma numbers_from_app (n m : nat) :
  forall c : Z,
    numbers_from c (n + m)
    = numbers_from c n ++ numbers_from (c + Z.of_nat n) m.
Proof.
  induction n as [|n IH]; intros c.
  - cbn [Nat.add Z.of_nat]. rewrite Z.add_0_r. reflexivity.
  - cbn [Nat.add]. rewrite !numbers_from_S, IH. cbn [app].
    replace (c + 1 + Z.of_nat n)%Z with (c + Z.of_nat (S n))%Z by lia.
    reflexivity.
Qed.

Lemma episodes_loop_rated_rows (s : Z) (pre : list episode_block) :
  Forall (yields_row unicode_decimal strptime s) pre ->
  forall c : Z,
  exists new : list episode_data,
    Forall2 (row_of_block unicode_decimal strptime s) pre new
    /\ cumulative_numbers new = numbers_from c (List.length pre)
    /\ forall (rest : list episode_block) (rows : list episode_data),
        episodes_loop unicode_decimal strptime s (pre ++ rest) c rows
        = episodes_loop unicode_decimal strptime s rest
            (c + Z.of_nat (List.length pre)) (rows ++ new).
Proof.
  induction 1 as [|b pre [row Hb] _ IH]; intros c.
  - exists []. split; [constructor|]. split; [reflexivity|].
    intros rest rows. cbn [List.length app Z.of_nat].
    now rewrite Z.add_0_r, app_nil_r.
  - destruct (IH (c + 1)%Z) as (new & Hrows & Hnum & Hloop).
    assert (Hstep : episode_step unicode_decimal strptime s c b
                    = Ok ((c + 1)%Z, Some (with_cumulative (c + 1) row))).
    { rewrite (episode_step_any_counter unicode_decimal strptime s 0 c b), Hb.
      reflexivity. }
    exists (with_cumulative (c + 1) row :: new). split; [|split].
    + constructor; [|exact Hrows]. unfold row_of_block.
      cbn [with_cumulative cumulative_episode_number].
      replace (c + 1 - 1)%Z with c by lia. exact Hstep.
    + cbn [List.length]. rewrite numbers_from_S.
      cbn [cumulative_numbers List.map with_cumulative
             cumulative_episode_number].
      f_equal. exact Hnum.
    + intros rest rows. cbn [app episodes_loop]. rewrite Hstep. cbn [bind].
      rewrite Hloop, <- app_assoc. cbn [app]. f_equal.
      cbn [List.length]. lia.
Qed.

(** X10: when the page of every season is served and every episode block
    on it yields a row, the loop over the seasons shows nothing and appends
    exactly one row for each block of each season, in the order of the
    seasons and of the blocks: each new row is what the loop body yields
    for its block, and the new rows are numbered consecutively from the
    counter on, across the seasons, so that the numbers are the
    positions. *)
Theorem seasons_loop_all_rated (url : str) (seasons : list Z) :
  Forall (fully_rated unicode_decimal strptime requests_get BeautifulSoup url)
    seasons ->
  forall (c : Z) (rows : list episode_data),
  exists new : list episode_data,
    seasons_loop unicode_decimal strptime requests_get BeautifulSoup
      url seasons c rows
    = ([], Ok ((c + Z.of_nat (List.length new))%Z, rows ++ new))
    /\ cumulative_numbers new = numbers_from c (List.length new)
    /\ List.length new
       = List.length
           (flat_map (season_blocks requests_get BeautifulSoup url) seasons)
    /\ Forall2
         (fun sb row =>
            row_of_block unicode_decimal strptime (fst sb) (snd sb) row)
         (flat_map
            (fun s =>
               List.map (pair s)
                 (season_blocks requests_get BeautifulSoup url s))
            seasons)
         new.
Proof.
  induction 1 as [|s seasons (text & Hf & Hall) _ IH]; intros c rows.
  - exists []. cbn [seasons_loop ret List.length Z.of_nat flat_map].
    rewrite Z.add_0_r, app_nil_r.
    split; [reflexivity|]. split; [reflexivity|].
    split; [reflexivity|constructor].
  - destruct (episodes_loop_rated_rows s _ Hall c)
      as (new1 & Hrows1 & Hnum & Hloop).
    pose proof (Forall2_length Hrows1) as Hlen.
    destruct (IH (c + Z.of_nat (List.length new1))%Z (rows ++ new1))
      as (new2 & Hl2 & Hn2 & Hlen2 & Hrows2).
    assert (Hb : season_blocks requests_get BeautifulSoup url s
                 = episodes (BeautifulSoup text))
      by (unfold season_blocks; now rewrite Hf).
    exists (new1 ++ new2). split; [|split; [|split]].
    + cbn [seasons_loop]. rewrite Hf. cbn [io_bind lift soup_of].
      specialize (Hloop [] rows). rewrite app_nil_r in Hloop.
      cbn [episodes_loop] in Hloop. rewrite Hloop, Hlen.
      cbn [io_bind fst snd app]. rewrite Hl2. cbn [app].
      rewrite length_app, Nat2Z.inj_add, Z.add_assoc, app_assoc.
      reflexivity.
    + unfold cumulative_numbers in *. rewrite map_app, Hnum, Hn2.
      rewrite length_app, numbers_from_app, Hlen. reflexivity.
    + cbn [flat_map]. rewrite !length_app, Hb, Hlen2, Hlen. reflexivity.
    + cbn [flat_map]. apply Forall2_app; [|exact Hrows2]. rewrite Hb.
      clear - Hrows1. induction Hrows1; cbn [List.map]; constructor; auto.
Qed.

(** X11: an episode block on which the loop body raises, after blocks that
    all yield a row, ends the loop over the episodes with that exception,
    whatever the counter and the rows collected so far: no row of the
    series is returned. *)
Theorem episodes_loop_raises (s : Z) (pre post : list episode_block)
    (b : episode_block) (e : exn) :
  Forall (yields_row unicode_decimal strptime s) pre ->
  episode_step unicode_decimal strptime s 0 b = Raise e ->
  forall (c : Z) (rows : list episode_data),
    episodes_loop unicode_decimal strptime s (pre ++ b :: post) c rows
    = Raise e.
Proof.
  intros Hpre Hb c rows.
  destruct (episodes_loop_rated unicode_decimal strptime s pre Hpre c)
    as (new & _ & _ & Hloop).
  rewrite Hloop. cbn [episodes_loop].
  rewrite (episode_step_any_counter unicode_decimal strptime s 0 _ b), Hb.
  reflexivity.
Qed.

End Series2.

Lemma parse_data_returns_without_error_witness :
  forallb printed_event
    [skip_line (lit "Specials")] = true
  /\ forallb (fun e => negb (fetch_error_event e))
       [skip_line (lit "Specials")] = true.
Proof.
  eapply (parse_data_returns_without_error ascii_only sample_strptime
            network_up specials_parser (lit "root") sample_url).
  vm_compute. reflexivity.
Defined.

Lemma parse_data_index_fetch_fails_witness :
  exists e : event,
    fetch_error_event e = true
    /\ parse_data ascii_only sample_strptime network_index_404
         (two_season_parser [] []) (lit "root") sample_url
       = ([e], Raise TypeError).
Proof.
  eapply (parse_data_index_fetch_fails ascii_only sample_strptime
            network_index_404 (two_season_parser [] []) (lit "root")
            sample_url (lit "8.4") (lit "12K")).
  - reflexivity.
  - vm_compute. reflexivity.
  - reflexivity.
  - vm_compute. reflexivity.
  - vm_compute. reflexivity.
Defined.


Lemma parse_data_rows_by_season_witness :
  exists (n : Z) (groups : list (list episode_data)),
    sample_rows = List.concat groups /\ by_season (range 1 (n + 1)) groups.
Proof.
  apply (parse_data_rows_by_season ascii_only sample_strptime network_up
           specials_parser (lit "root") sample_url sample_rows).
  vm_compute. reflexivity.
Defined.

Lemma parse_data_numbers_near_positions_witness :
  StronglySorted Z.lt (cumulative_numbers sample_rows)
  /\ forall (i : nat) (row : episode_data),
      nth_error sample_rows i = Some row ->
      (Z.of_nat i + 1 <= cumulative_episode_number row
       <= Z.of_nat i + season row)%Z.
Proof.
  apply (parse_data_numbers_near_positions ascii_only sample_strptime
           network_up specials_parser (lit "root") sample_url sample_rows).
  vm_compute. reflexivity.
Defined.

Lemma seasons_loop_all_rated_witness :
  exists new : list episode_data,
    seasons_loop ascii_only sample_strptime network_up
      (two_season_parser (rated_blocks 1 2) (rated_blocks 2 1))
      (sample_url ++ episodes_suffix) [1; 2]%Z 0 []
    = ([], Ok ((0 + Z.of_nat (List.length new))%Z, [] ++ new))
    /\ cumulative_numbers new = numbers_from 0 (List.length new)
    /\ List.length new
       = List.length
           (flat_map
              (season_blocks network_up
                 (two_season_parser (rated_blocks 1 2) (rated_blocks 2 1))
                 (sample_url ++ episodes_suffix))
              [1; 2]%Z)
    /\ Forall2
         (fun sb row =>
            row_of_block ascii_only sample_strptime (fst sb) (snd sb) row)
         (flat_map
            (fun s =>
               List.map (pair s)
                 (season_blocks network_up
                    (two_season_parser (rated_blocks 1 2) (rated_blocks 2 1))
                    (sample_url ++ episodes_suffix) s))
            [1; 2]%Z)
         new.
Proof.
  refine (seasons_loop_all_rated ascii_only sample_strptime network_up
            (two_season_parser (rated_blocks 1 2) (rated_blocks 2 1))
            (sample_url ++ episodes_suffix) [1; 2]%Z _ 0%Z []).
  constructor; [|constructor; [|constructor]].
  - exists (lit "season 1"). split; [vm_compute; reflexivity|].
    constructor; [|constructor; [|constructor]];
      eexists; vm_compute; reflexivity.
  - exists (lit "season 2"). split; [vm_compute; reflexivity|].
    constructor; [|constructor]; eexists; vm_compute; reflexivity.
Defined.

Lemma episodes_loop_raises_witness :
  episodes_loop ascii_only sample_strptime 1
    (rated_blocks 1 2
       ++ undescribed_block (title_field 1 3 (lit "Title"))
       :: rated_blocks 1 1) 0 []
  = Raise AttributeError.
Proof.
  refine (episodes_loop_raises ascii_only sample_strptime 1
            (rated_blocks 1 2) (rated_blocks 1 1)
            (undescribed_block (title_field 1 3 (lit "Title")))
            AttributeError _ _ 0%Z []).
  - constructor; [|constructor; [|constructor]];
      eexists; vm_compute; reflexivity.
  - vm_compute. reflexivity.
Defined.

(** ** The title field *)

Ltac step_in H :=
  match type of H with
  | bind ?c _ = _ =>
      let E := fresh "E" in
      destruct c eqn:E; cbn [bind] in H; [|discriminate H]
  end.

Lemma digit_bounds (c : char) :
  is_ascii_digit c = true -> (48 <= c <= 57)%N.
Proof.
  unfold is_ascii_digit, in_range. intros H.
  apply andb_true_iff in H as [H1 H2]. apply N.leb_le in H1, H2. lia.
Qed.

Lemma span_run (p : char -> bool) (a rest : str) :
  forallb p a = true ->
  match rest with [] => True | c :: _ => p c = false end ->
  span p (a ++ rest) = (a, rest).
Proof.
  intros Ha Hr. induction a as [|c a IH]; cbn [app].
  - destruct rest as [|c rest]; [reflexivity|]. cbn [span]. now rewrite Hr.
  - cbn [forallb] in Ha. apply andb_true_iff in Ha as [Hc Ha].
    cbn [span]. rewrite Hc, (IH Ha). reflexivity.
Qed.

Lemma match_epnum_field (a d : str) :
  a <> [] -> forallb is_ascii_digit a = true ->
  d <> [] -> forallb is_ascii_digit d = true ->
  match_epnum (ch "S" :: a ++ ch "." :: ch "E" :: d) = Some (d, []).
Proof.
  intros Ha Hda Hd Hdd. unfold match_epnum.
  replace (char_eqb (ch "S") (ch "S")) with true by reflexivity.
  rewrite (span_run is_ascii_digit a (ch "." :: ch "E" :: d) Hda)
    by reflexivity.
  destruct a as [|x a]; [congruence|].
  replace (char_eqb (ch ".") (ch ".") && char_eqb (ch "E") (ch "E"))
    with true by reflexivity.
  pose proof (span_run is_ascii_digit d [] Hdd I) as E.
  rewrite app_nil_r in E. rewrite E.
  destruct d; [congruence|reflexivity].
Qed.

Lemma epnum_sub_go_skip (s : str) :
  forall k : nat, (List.length s <= k)%nat -> epnum_sub_go k s = [].
Proof.
  induction s as [|c s IH]; intros k H; cbn [epnum_sub_go]; [reflexivity|].
  cbn [List.length] in H. destruct k as [|k]; [lia|]. apply IH. lia.
Qed.

Lemma epnum_sub_field (a d : str) :
  a <> [] -> forallb is_ascii_digit a = true ->
  d <> [] -> forallb is_ascii_digit d = true ->
  epnum_sub (lit "S" ++ a ++ lit ".E" ++ d) = d.
Proof.
  intros Ha Hda Hd Hdd.
  change (lit "S" ++ a ++ lit ".E" ++ d)
    with (ch "S" :: a ++ ch "." :: ch "E" :: d).
  unfold epnum_sub. cbn [epnum_sub_go].
  rewrite (match_epnum_field a d Ha Hda Hd Hdd).
  rewrite epnum_sub_go_skip by (cbn [List.length]; lia).
  apply app_nil_r.
Qed.

Lemma scan_int_digits (d : str) :
  forall (acc : Z) (n : nat),
    forallb is_ascii_digit d = true ->
    scan_int false acc n d
    = Some (fold_left (fun acc c => (10 * acc + Z.of_N (c - 48))%Z) d acc,
            (n + List.length d)%nat, []).
Proof.
  induction d as [|c d IH]; intros acc n H; cbn [scan_int fold_left].
  - cbn [List.length]. now rewrite Nat.add_0_r.
  - cbn [forallb] in H. apply andb_true_iff in H as [Hc H].
    rewrite Hc, (IH _ _ H). cbn [List.length]. do 3 f_equal. lia.
Qed.

Lemma strip_prefix_separator_none (c : char) (s : str) :
  N.eqb c 32 = false -> strip_prefix separator (c :: s) = None.
Proof.
  intros H. unfold separator. cbn [strip_prefix]. unfold char_eqb.
  now rewrite N.eqb_sym, H.
Qed.

Lemma split_prefix (name p : str) :
  forallb (fun c => negb (N.eqb c 32)) p = true ->
  forall cur : str,
    split_go separator 0 cur (p ++ separator ++ name)
    = (rev cur ++ p) :: split_go separator 0 [] name.
Proof.
  induction p as [|c p IH]; intros H cur.
  - rewrite app_nil_r. reflexivity.
  - cbn [forallb] in H. apply andb_true_iff in H as [Hc H].
    apply negb_true_iff in Hc. cbn [app split_go].
    rewrite (strip_prefix_separator_none _ _ Hc), (IH H).
    cbn [rev]. now rewrite <- app_assoc.
Qed.

Lemma split_go_no_occurrence (sep s : str) :
  forall cur : str,
    occurs sep s = false -> split_go sep 0 cur s = [rev cur ++ s].
Proof.
  induction s as [|c s IH]; intros cur H.
  - cbn [split_go]. now rewrite app_nil_r.
  - cbn [occurs] in H. cbn [split_go].
    destruct (strip_prefix sep (c :: s)); [discriminate H|].
    rewrite (IH _ H). cbn [rev]. now rewrite <- app_assoc.
Qed.

Section TitleField.

Variable unicode_decimal : char -> option N.
Variable strptime : str -> option datetime.

Lemma py_int_digits (d : str) (n : Z) :
  forallb is_ascii_digit d = true ->
  py_int unicode_decimal d = Ok n ->
  n = digits_value d.
Proof.
  intros Hd. destruct d as [|c d]; [discriminate|].
  assert (Ha : forallb (fun x => (x <? 128)%N) (c :: d) = true).
  { apply forallb_forall. intros x Hx.
    rewrite forallb_forall in Hd. apply Hd, digit_bounds in Hx.
    apply N.ltb_lt. lia. }
  pose proof Hd as Hc. cbn [forallb] in Hc.
  apply andb_true_iff in Hc as [Hc _]. apply digit_bounds in Hc.
  assert (Hs : is_c_space c = false).
  { unfold is_c_space, in_range. apply orb_false_iff. split.
    - apply andb_false_iff. right. apply N.leb_gt. lia.
    - apply N.eqb_neq. lia. }
  assert (Hm : char_eqb c (ch "-") = false)
    by (apply N.eqb_neq; change (ch "-") with 45%N; lia).
  assert (Hp : char_eqb c (ch "+") = false)
    by (apply N.eqb_neq; change (ch "+") with 43%N; lia).
  assert (Hu : char_eqb c (ch "_") = false)
    by (apply N.eqb_neq; change (ch "_") with 95%N; lia).
  unfold py_int, transform_decimal_and_space. rewrite Ha.
  cbn [lstrip_with]. rewrite Hs. unfold take_sign. rewrite Hm, Hp, Hu.
  rewrite (scan_int_digits _ _ _ Hd). cbn [Nat.add List.length lstrip_with].
  destruct (Nat.ltb _ _); intros H; [discriminate H|].
  now injection H as <-.
Qed.

Lemma episode_step_number (s c c' : Z) (b : episode_block)
    (row : episode_data) :
  episode_step unicode_decimal strptime s c b = Ok (c', Some row) ->
  exists t first : str,
    title_div b = Some t
    /\ nth_error (split separator (strip t)) 0 = Some first
    /\ py_int unicode_decimal (epnum_sub first) = Ok (episode_number row).
Proof.
  unfold episode_step. intros H.
  destruct (title_div b) as [t|]; cbn [text_of bind] in H; [|discriminate H].
  exists t. unfold index in H.
  destruct (nth_error (split separator (strip t)) 0) as [first|];
    cbn [bind] in H; [|discriminate H].
  exists first. split; [reflexivity|]. split; [reflexivity|].
  destruct (py_int unicode_decimal (epnum_sub first)) as [n|];
    cbn [bind] in H; [|discriminate H].
  destruct (nth_error (split separator (strip t)) 1) as [name|];
    cbn [bind] in H; [|discriminate H].
  destruct (rating_star b) as [rating|]; [|discriminate H].
  do 5 step_in H.
  destruct (strptime _) as [d|]; cbn [bind] in H; [|discriminate H].
  step_in H. injection H as _ <-. reflexivity.
Qed.

(** X12: how the title field is read. For a title that is, stripped,
    [S<a>.E<d>] followed by the separator and a rest, with [a] and [d]
    non-empty runs of ASCII digits, a row that the loop body yields has as
    episode number the number [d], as title the rest up to the next
    separator, and as season the season of the loop: the number [a] of the
    title field is not read. *)
Theorem episode_step_reads_title_field (s c c' : Z) (b : episode_block)
    (t a d name : str) (row : episode_data) :
  title_div b = Some t ->
  strip t = lit "S" ++ a ++ lit ".E" ++ d ++ separator ++ name ->
  a <> [] -> forallb is_ascii_digit a = true ->
  d <> [] -> forallb is_ascii_digit d = true ->
  episode_step unicode_decimal strptime s c b = Ok (c', Some row) ->
  episode_number row = digits_value d
  /\ nth_error (split separator name) 0 = Some (title row)
  /\ season row = s.
Proof.
  intros Ht Hshape Ha Hda Hd Hdd H.
  assert (Hsplit : split separator (strip t)
                   = (lit "S" ++ a ++ lit ".E" ++ d)
                     :: split separator name).
  { rewrite Hshape. unfold split.
    replace (lit "S" ++ a ++ lit ".E" ++ d ++ separator ++ name)
      with ((lit "S" ++ a ++ lit ".E" ++ d) ++ separator ++ name)
      by (now rewrite <- !app_assoc).
    assert (Hn : forall x : list N,
               forallb is_ascii_digit x = true ->
               forallb (fun c => negb (N.eqb c 32)) x = true).
    { intros x Hx. apply forallb_forall. intros y Hy.
      rewrite forallb_forall in Hx. apply Hx, digit_bounds in Hy.
      apply negb_true_iff, N.eqb_neq. lia. }
    apply (split_prefix name (lit "S" ++ a ++ lit ".E" ++ d)).
    rewrite !forallb_app, !andb_true_iff.
    split; [reflexivity|]. split; [exact (Hn a Hda)|].
    split; [reflexivity|exact (Hn d Hdd)]. }
  split; [|split].
  - apply episode_step_number in H as (t' & first & Ht' & E0 & En).
    rewrite Ht in Ht'. injection Ht' as <-.
    assert (Hfirst : first = lit "S" ++ a ++ lit ".E" ++ d).
    { rewrite Hsplit in E0. injection E0 as E0. symmetry. exact E0. }
    rewrite Hfirst in En.
    rewrite (epnum_sub_field a d Ha Hda Hd Hdd) in En.
    exact (py_int_digits d _ Hdd En).
  - apply episode_step_title in H as (t' & Ht' & E1).
    rewrite Ht in Ht'. injection Ht' as <-.
    rewrite Hsplit in E1. exact E1.
  - apply episode_step_returns in H as (_ & _ & Hs). exact Hs.
Qed.

(** X13: a title field in which the separator of the source does not
    occur never yields a row and never ends the season quietly: the loop
    body raises, [ValueError] when what the substitution leaves of the whole
    field is no integer literal, [IndexError] otherwise. The separator of
    the source is the five characters blank, U+00E2, U+02C6, U+2122, blank;
    a field that is divided by the bullet operator U+2219 is such a field. *)
Theorem episode_step_without_separator (s c : Z) (b : episode_block)
    (t : str) :
  title_div b = Some t ->
  occurs separator (strip t) = false ->
  episode_step unicode_decimal strptime s c b
  = match py_int unicode_decimal (epnum_sub (strip t)) with
    | Ok _ => Raise IndexError
    | Raise _ => Raise ValueError
    end.
Proof.
  intros Ht Ho. unfold episode_step. rewrite Ht. cbn [text_of bind].
  unfold split. rewrite (split_go_no_occurrence _ _ [] Ho).
  cbn [rev app index nth_error bind].
  destruct (py_int unicode_decimal (epnum_sub (strip t))) as [n|e] eqn:E;
    cbn [bind]; [reflexivity|].
  now rewrite (py_int_raises unicode_decimal _ _ E).
Qed.

End TitleField.

Lemma episode_step_reads_title_field_witness :
  exists row : episode_data,
    episode_step ascii_only sample_strptime 7 0
      (rated_block (title_field 1 2 (lit "Title"))) = Ok (1%Z, Some row)
    /\ episode_number row = digits_value (lit "2")
    /\ nth_error (split separator (lit "Title")) 0 = Some (title row)
    /\ season row = 7%Z.
Proof.
  eexists. split; [vm_compute; reflexivity|].
  eapply (episode_step_reads_title_field ascii_only sample_strptime 7 0 1
            (rated_block (title_field 1 2 (lit "Title")))
            (title_field 1 2 (lit "Title")) (lit "1") (lit "2")
            (lit "Title")).
  - reflexivity.
  - vm_compute. reflexivity.
  - discriminate.
  - reflexivity.
  - discriminate.
  - reflexivity.
  - vm_compute. reflexivity.
Defined.

Lemma episode_step_without_separator_witness :
  episode_step ascii_only sample_strptime 1 0
    (rated_block (lit "S1.E1" ++ bullet ++ lit "Pilot"))
  = Raise ValueError.
Proof.
  exact (episode_step_without_separator ascii_only sample_strptime 1 0
           (rated_block (lit "S1.E1" ++ bullet ++ lit "Pilot"))
           (lit "S1.E1" ++ bullet ++ lit "Pilot")
           eq_refl eq_refl).
Defined.

(** ** The rating field *)

Lemma votesmatch_search_skip (p rest : str) :
  mem_char (ch "(") p = false ->
  votesmatch_search (p ++ rest) = votesmatch_search rest.
Proof.
  induction p as [|c p IH]; intros H; [reflexivity|].
  unfold mem_char in H. cbn [existsb] in H.
  apply orb_false_iff in H as [Hc H].
  cbn [app votesmatch_search]. unfold char_eqb in *.
  rewrite N.eqb_sym, Hc. exact (IH H).
Qed.

Lemma votesmatch_search_group (v rest : str) :
  mem_char (ch ")") v = false ->
  votesmatch_search (lit "(" ++ v ++ lit ")" ++ rest) = Some v.
Proof.
  intros H.
  change (lit "(" ++ v ++ lit ")" ++ rest)
    with (ch "(" :: v ++ ch ")" :: rest).
  unfold votesmatch_search.
  replace (char_eqb (ch "(") (ch "(")) with true by reflexivity.
  rewrite (span_run (fun x => negb (char_eqb x (ch ")"))) v (ch ")" :: rest));
    [reflexivity| |reflexivity].
  apply forallb_forall. intros x Hx. apply negb_true_iff.
  destruct (char_eqb x (ch ")")) eqn:E; [|reflexivity].
  apply N.eqb_eq in E. subst x.
  unfold mem_char in H. rewrite <- H. symmetry. apply existsb_exists.
  exists (ch ")"). split; [exact Hx|reflexivity].
Qed.

Section RatingField.

Variable unicode_decimal : char -> option N.
Variable strptime : str -> option datetime.

Lemma is_decimal_digit (c : char) :
  is_ascii_digit c = true -> is_decimal unicode_decimal c = true.
Proof.
  intros H. unfold is_decimal, decimal_value, ascii_digit_value.
  rewrite H. apply digit_bounds in H.
  destruct (c <? 128)%N eqn:E; [reflexivity|]. apply N.ltb_ge in E. lia.
Qed.

Lemma is_decimal_digits (ds : str) :
  forallb is_ascii_digit ds = true ->
  forallb (is_decimal unicode_decimal) ds = true.
Proof.
  intros H. apply forallb_forall. intros x Hx.
  rewrite forallb_forall in H. exact (is_decimal_digit x (H x Hx)).
Qed.

(** The first number of a text that begins with digits. *)
Lemma ratingmatch_search_integer (i rest : str) :
  i <> [] -> forallb is_ascii_digit i = true ->
  ratingmatch_search unicode_decimal (i ++ lit "/" ++ rest) = Some i.
Proof.
  intros Hi Hd. destruct i as [|c i]; [congruence|].
  pose proof (is_decimal_digits _ Hd) as Hdec.
  pose proof Hdec as Hc. cbn [forallb] in Hc.
  apply andb_true_iff in Hc as [Hc _].
  cbn [app ratingmatch_search]. rewrite Hc.
  change (c :: i ++ lit "/" ++ rest) with ((c :: i) ++ ch "/" :: rest).
  rewrite (span_run (is_decimal unicode_decimal) (c :: i) (ch "/" :: rest)
             Hdec) by reflexivity.
  reflexivity.
Qed.

Lemma ratingmatch_search_fraction (i f rest : str) :
  i <> [] -> forallb is_ascii_digit i = true ->
  f <> [] -> forallb is_ascii_digit f = true ->
  ratingmatch_search unicode_decimal (i ++ (lit "." ++ f) ++ lit "/" ++ rest)
  = Some (i ++ lit "." ++ f).
Proof.
  intros Hi Hd Hf Hfd. destruct i as [|c i]; [congruence|].
  pose proof (is_decimal_digits _ Hd) as Hdec.
  pose proof Hdec as Hc. cbn [forallb] in Hc.
  apply andb_true_iff in Hc as [Hc _].
  cbn [app ratingmatch_search]. rewrite Hc.
  change (c :: i ++ (lit "." ++ f) ++ lit "/" ++ rest)
    with ((c :: i) ++ ch "." :: f ++ ch "/" :: rest).
  rewrite (span_run (is_decimal unicode_decimal) (c :: i)
             (ch "." :: f ++ ch "/" :: rest) Hdec) by reflexivity.
  replace (char_eqb (ch ".") (ch ".")) with true by reflexivity.
  rewrite (span_run (is_decimal unicode_decimal) f (ch "/" :: rest)
             (is_decimal_digits _ Hfd)) by reflexivity.
  cbn [fst]. destruct f; [congruence|reflexivity].
Qed.

Lemma mem_char_digits (c : char) (ds : str) :
  (c < 48)%N -> forallb is_ascii_digit ds = true -> mem_char c ds = false.
Proof.
  intros Hc H. unfold mem_char.
  destruct (existsb (char_eqb c) ds) eqn:E; [|reflexivity].
  apply existsb_exists in E as (x & Hx & E). apply N.eqb_eq in E. subst x.
  rewrite forallb_forall in H. apply H, digit_bounds in Hx. lia.
Qed.

Lemma mem_char_app (c : char) (a b : str) :
  mem_char c (a ++ b) = mem_char c a || mem_char c b.
Proof. unfold mem_char. apply existsb_app. Qed.

Lemma episode_step_rating (s c c' : Z) (b : episode_block)
    (row : episode_data) :
  episode_step unicode_decimal strptime s c b = Ok (c', Some row) ->
  exists r g v : str,
    rating_star b = Some r
    /\ ratingmatch_search unicode_decimal (strip r) = Some g
    /\ rating_number unicode_decimal g = Ok (rating_value row)
    /\ votesmatch_search (strip r) = Some v
    /\ text_to_num unicode_decimal v = Ok (votes row).
Proof.
  unfold episode_step. intros H. do 4 step_in H.
  destruct (rating_star b) as [r|]; [|discriminate H].
  exists r.
  destruct (ratingmatch_search unicode_decimal (strip r)) as [g|];
    cbn [group1 bind] in H; [|discriminate H].
  exists g.
  destruct (rating_number unicode_decimal g) as [x|] eqn:Ex;
    cbn [bind] in H; [|discriminate H].
  destruct (votesmatch_search (strip r)) as [v|];
    cbn [group1 bind] in H; [|discriminate H].
  exists v.
  destruct (text_to_num unicode_decimal v) as [n|] eqn:En;
    cbn [bind] in H; [|discriminate H].
  step_in H.
  destruct (strptime _) as [d|]; cbn [bind] in H; [|discriminate H].
  step_in H. injection H as _ <-. cbn [rating_value votes]. auto.
Qed.

(** X14: how the rating field is read. For a rating text that is,
    stripped, a number, [/10 (], a vote count and a closing parenthesis,
    where the number is a non-empty run [i] of ASCII digits with or without
    a fraction of a point and more such digits and the vote count has no
    closing parenthesis, a row that the loop body yields has as rating what
    [rating_number] makes of the number and as votes what [text_to_num]
    makes of the vote count. A rating without a fraction is the [int] of
    its digits, not a [float]. *)
Theorem episode_step_reads_rating_field (s c c' : Z) (b : episode_block)
    (r i frac v : str) (row : episode_data) :
  rating_star b = Some r ->
  strip r = i ++ frac ++ lit "/10 (" ++ v ++ lit ")" ->
  i <> [] -> forallb is_ascii_digit i = true ->
  (frac = []
   \/ exists f : str,
       f <> [] /\ forallb is_ascii_digit f = true /\ frac = lit "." ++ f) ->
  mem_char (ch ")") v = false ->
  episode_step unicode_decimal strptime s c b = Ok (c', Some row) ->
  rating_number unicode_decimal (i ++ frac) = Ok (rating_value row)
  /\ text_to_num unicode_decimal v = Ok (votes row)
  /\ (frac = [] -> rating_value row = PyInt (digits_value i)).
Proof.
  intros Hr Hshape Hi Hd Hfrac Hv H.
  apply episode_step_rating in H as (r' & g & v' & Hr' & Hg & Hn & Hv' & Ht).
  rewrite Hr in Hr'. injection Hr' as <-. rewrite Hshape in Hg, Hv'.
  assert (Eg : g = i ++ frac).
  { destruct Hfrac as [->|(f & Hf & Hfd & ->)].
    - change (i ++ [] ++ lit "/10 (" ++ v ++ lit ")")
        with (i ++ lit "/" ++ lit "10 (" ++ v ++ lit ")") in Hg.
      rewrite (ratingmatch_search_integer i _ Hi Hd) in Hg.
      injection Hg as <-. now rewrite app_nil_r.
    - change (i ++ (lit "." ++ f) ++ lit "/10 (" ++ v ++ lit ")")
        with (i ++ (lit "." ++ f) ++ lit "/" ++ lit "10 (" ++ v ++ lit ")")
        in Hg.
      rewrite (ratingmatch_search_fraction i f _ Hi Hd Hf Hfd) in Hg.
      now injection Hg as <-. }
  assert (Ev : v' = v).
  { replace (i ++ frac ++ lit "/10 (" ++ v ++ lit ")")
      with ((i ++ frac ++ lit "/10 ") ++ lit "(" ++ v ++ lit ")" ++ [])
      in Hv' by (now rewrite <- !app_assoc).
    rewrite votesmatch_search_skip, (votesmatch_search_group v [] Hv) in Hv'.
    - now injection Hv' as <-.
    - rewrite !mem_char_app, (mem_char_digits _ i) by (reflexivity || exact Hd).
      destruct Hfrac as [->|(f & Hf & Hfd & ->)]; [reflexivity|].
      rewrite mem_char_app, (mem_char_digits _ f)
        by (reflexivity || exact Hfd).
      reflexivity. }
  subst g v'. split; [exact Hn|]. split; [exact Ht|].
  intros ->. rewrite app_nil_r in Hn. unfold rating_number in Hn.
  rewrite (mem_char_digits _ i) in Hn by (reflexivity || exact Hd).
  destruct (py_int unicode_decimal i) as [z|] eqn:Ez; cbn [bind] in Hn;
    [|discriminate Hn].
  injection Hn as <-. f_equal. exact (py_int_digits unicode_decimal i z Hd Ez).
Qed.

End RatingField.

Lemma episode_step_reads_rating_field_witness :
  exists row : episode_data,
    episode_step ascii_only sample_strptime 1 0
      (rated_block (title_field 1 2 (lit "Title"))) = Ok (1%Z, Some row)
    /\ rating_number ascii_only (lit "8" ++ lit ".5") = Ok (rating_value row)
    /\ text_to_num ascii_only (lit "1.2K") = Ok (votes row)
    /\ (lit ".5" = [] -> rating_value row = PyInt (digits_value (lit "8"))).
Proof.
  eexists. split; [vm_compute; reflexivity|].
  eapply (episode_step_reads_rating_field ascii_only sample_strptime 1 0 1
            (rated_block (title_field 1 2 (lit "Title")))
            (lit "8.5/10 (1.2K)") (lit "8") (lit ".5") (lit "1.2K")).
  - reflexivity.
  - vm_compute. reflexivity.
  - discriminate.
  - reflexivity.
  - right. exists (lit "5"). split; [discriminate|]. split; reflexivity.
  - reflexivity.
  - vm_compute. reflexivity.
Defined.

(** ** The exceptions of the loop body *)

Lemma split_go_cons (sep s : str) :
  forall (k : nat) (cur : str),
  exists (a : str) (l : list str), split_go sep k cur s = a :: l.
Proof.
  induction s as [|c s IH]; intros k cur; cbn [split_go]; [eauto|].
  destruct k as [|k]; [|apply IH].
  destruct (strip_prefix sep (c :: s)); [eauto|apply IH].
Qed.

Lemma split_go_two (sep s : str) :
  sep <> [] ->
  forall cur : str,
    occurs sep s = true ->
    exists (a b : str) (l : list str), split_go sep 0 cur s = a :: b :: l.
Proof.
  intros Hsep. induction s as [|c s IH]; intros cur H.
  - cbn [occurs] in H. cbn [split_go].
    destruct (strip_prefix sep []) eqn:E; [|discriminate H].
    destruct sep; [congruence|discriminate E].
  - cbn [occurs] in H. cbn [split_go].
    destruct (strip_prefix sep (c :: s)).
    + destruct (split_go_cons sep s (List.length sep - 1) []) as (b & l & ->).
      eauto.
    + apply IH. exact H.
Qed.

Section StepExceptions.

Variable unicode_decimal : char -> option N.
Variable strptime : str -> option datetime.

Lemma rating_number_raises (g : str) (e : exn) :
  rating_number unicode_decimal g = Raise e -> e = ValueError.
Proof.
  unfold rating_number. destruct (mem_char _ _).
  - destruct (py_float unicode_decimal g) eqn:E; cbn [bind];
      [discriminate|].
    intros H. injection H as <-. exact (py_float_raises _ _ _ E).
  - destruct (py_int unicode_decimal g) eqn:E; cbn [bind]; [discriminate|].
    intros H. injection H as <-. exact (py_int_raises _ _ _ E).
Qed.

Lemma text_to_num_raise_kinds (text : str) (e : exn) :
  text_to_num unicode_decimal text = Raise e ->
  (e = IndexError /\ text = []) \/ e = ValueError \/ e = OverflowError.
Proof.
  destruct (list_last_cases _ text) as [->|(body & c & ->)].
  - intros H. injection H as <-. now left.
  - rewrite text_to_num_last. intros H. right.
    destruct (dict_get [c] dic) as [mag|] eqn:Ed.
    + destruct (py_float unicode_decimal body) as [x|e'] eqn:Ex;
        cbn [bind] in H.
      * destruct (float_mul_int_dic c mag x Ed) as (p & Ep).
        rewrite Ep in H. cbn [bind] in H.
        destruct (int_of_float p) as [z|e'] eqn:Ez; cbn [bind] in H;
          [discriminate H|].
        injection H as <-.
        apply int_of_float_raises in Ez as [[-> _]|[-> _]]; auto.
      * injection H as <-. left. exact (py_float_raises _ _ _ Ex).
    + destruct (py_float unicode_decimal (body ++ [c])) as [x|e'] eqn:Ex;
        cbn [bind] in H; [discriminate H|].
      injection H as <-. left. exact (py_float_raises _ _ _ Ex).
Qed.

(** X15: the exceptions of the loop body. It raises nothing but
    [AttributeError], [IndexError], [ValueError] and [OverflowError].
    [AttributeError] means that the title is missing or that, with a rating
    element present, the rating text has no number or no parenthesised
    group, or the air date or the description is missing; a missing rating
    element alone never raises. [IndexError] means that the separator does
    not occur in the title field, or that the parentheses of the rating
    text are empty. *)
Theorem episode_step_exceptions (s c : Z) (b : episode_block) (e : exn) :
  episode_step unicode_decimal strptime s c b = Raise e ->
  match e with
  | AttributeError =>
      title_div b = None
      \/ exists r : str,
          rating_star b = Some r
          /\ (ratingmatch_search unicode_decimal (strip r) = None
              \/ votesmatch_search (strip r) = None
              \/ air_date_span b = None
              \/ description_div b = None)
  | IndexError =>
      exists t : str,
        title_div b = Some t
        /\ (occurs separator (strip t) = false
            \/ exists r : str,
                rating_star b = Some r
                /\ votesmatch_search (strip r) = Some [])
  | ValueError | OverflowError => True
  | TypeError | KeyError => False
  end.
Proof.
  unfold episode_step. intros H.
  destruct (title_div b) as [t|]; cbn [text_of bind] in H;
    [|injection H as <-; now left].
  unfold split, index in H.
  destruct (occurs separator (strip t)) eqn:Eo.
  - assert (Hsep : separator <> []) by discriminate.
    destruct (split_go_two _ _ Hsep [] Eo) as (first & name & l & Es).
    rewrite Es in H. cbn [nth_error bind] in H.
    destruct (py_int unicode_decimal (epnum_sub first)) as [n|e'] eqn:En;
      cbn [bind] in H;
      [|injection H as <-; now rewrite (py_int_raises _ _ _ En)].
    destruct (rating_star b) as [r|]; [|discriminate H].
    destruct (ratingmatch_search unicode_decimal (strip r)) as [g|] eqn:Eg;
      cbn [group1 bind] in H; [|injection H as <-; right; eauto].
    destruct (rating_number unicode_decimal g) as [x|e'] eqn:Ex;
      cbn [bind] in H;
      [|injection H as <-; now rewrite (rating_number_raises _ _ Ex)].
    destruct (votesmatch_search (strip r)) as [v|] eqn:Ev;
      cbn [group1 bind] in H; [|injection H as <-; right; eauto].
    destruct (text_to_num unicode_decimal v) as [votes|e'] eqn:Et;
      cbn [bind] in H.
    + destruct (air_date_span b) as [d|] eqn:Ed; cbn [text_of bind] in H;
        [|injection H as <-; right; eauto 6].
      destruct (strptime (strip d)); cbn [bind] in H;
        [|injection H as <-; exact I].
      destruct (description_div b) eqn:Ede; cbn [text_of bind] in H;
        [discriminate H|].
      injection H as <-. right. eauto 7.
    + injection H as <-.
      apply text_to_num_raise_kinds in Et as [[-> ->]|[->| ->]];
        [|exact I|exact I].
      exists t. split; [reflexivity|]. right. eauto.
  - rewrite (split_go_no_occurrence _ _ [] Eo) in H.
    cbn [rev app nth_error bind] in H.
    destruct (py_int unicode_decimal (epnum_sub (strip t))) as [n|e'] eqn:En;
      cbn [bind] in H.
    + injection H as <-. exists t. auto.
    + injection H as <-. now rewrite (py_int_raises _ _ _ En).
Qed.

End StepExceptions.

Lemma episode_step_exceptions_witness :
  exists t : str,
    title_div (unvoted_block (title_field 1 1 (lit "Title"))) = Some t
    /\ (occurs separator (strip t) = false
        \/ exists r : str,
            rating_star (unvoted_block (title_field 1 1 (lit "Title")))
            = Some r
            /\ votesmatch_search (strip r) = Some []).
Proof.
  apply (episode_step_exceptions ascii_only sample_strptime 1 0
           (unvoted_block (title_field 1 1 (lit "Title"))) IndexError).
  vm_compute. reflexivity.
Defined.
